(** * Proof-of-stake kernel validation (src/pos.cpp)

    A shallow embedding of the functions of [pos.cpp] and the properties
    the specification states about them.

    Conventions of the embedding:
    - [uint256] is a [Z] in [0, 2^256): the value [UintToArith256] gives the
      32-byte blob, so [UintToArith256] is the identity and a blob is
      serialized as its 32 little-endian bytes;
    - [arith_uint256] is a [Z] in [0, 2^256) whose operations wrap modulo
      [2^256], written out;
    - [unsigned int] / [uint32_t] is a [Z] in [0, 2^32), [int64_t] a [Z] in
      [-2^63, 2^63), [int] a [Z]; block heights are far from the ends of
      [int], where signed arithmetic would be undefined;
    - [error(...)] logs and returns [false]; logging is not modelled;
    - a pointer that the code tests against null is an [option]; a pointer
      that the code dereferences without a test is the object itself. *)

From Stdlib Require Import ZArith Bool List Lia Strings.Byte.
From stdpp Require Import base countable gmap.
Import ListNotations.

Local Open Scope Z_scope.

(** ** Integers and byte strings *)

Abbreviation uint256 := Z (only parsing).
Abbreviation arith_uint256 := Z (only parsing).
Abbreviation uint32_t := Z (only parsing).
Abbreviation int64_t := Z (only parsing).
Abbreviation int := Z (only parsing).

Definition two256 : Z := 2 ^ 256.
Definition two64 : Z := 2 ^ 64.
Definition two32 : Z := 2 ^ 32.

Definition byte_of_Z (z : Z) : byte :=
  match Byte.of_N (Z.to_N (z mod 256)) with
  | Some b => b
  | None => x00
  end.

Definition Z_of_byte (b : byte) : Z := Z.of_N (Byte.to_N b).

(** [n] little-endian bytes of [x]. *)
Fixpoint le_bytes (n : nat) (x : Z) : list byte :=
  match n with
  | O => []
  | S n' => byte_of_Z x :: le_bytes n' (x / 256)
  end.

(** The value of a little-endian byte string. *)
Fixpoint le_value (bs : list byte) : Z :=
  match bs with
  | [] => 0
  | b :: bs' => Z_of_byte b + 256 * le_value bs'
  end.

(** ** The hash writer (hash.h, serialize.h)

    [CHashWriter ss(SER_GETHASH, 0)] is a byte stream: [ss << x] appends
    the serialization of [x], and [ss.GetHash()] asks the hash primitive
    for the digest of the stream. *)

Definition CHashWriter := list byte.

Definition CHashWriter_new : CHashWriter := [].

(** [ss << x] for a [uint256]: the 32 bytes of the blob. *)
Definition put_uint256 (ss : CHashWriter) (x : uint256) : CHashWriter :=
  ss ++ le_bytes 32 x.

(** [ss << x] for an [unsigned int]: 4 little-endian bytes. *)
Definition put_uint32 (ss : CHashWriter) (x : uint32_t) : CHashWriter :=
  ss ++ le_bytes 4 x.

Declare Scope hash_scope.
Delimit Scope hash_scope with hash.
Notation "ss '<<256' x" := (put_uint256 ss x)
  (at level 36, left associativity) : hash_scope.
Notation "ss '<<32' x" := (put_uint32 ss x)
  (at level 36, left associativity) : hash_scope.

(** Computations that may ask the hash primitive for a digest.  The
    primitive itself is an external collaborator: a computation is a tree
    whose nodes are the digests it asks for, and [eval] runs it against a
    given primitive. *)
Inductive Hashing (A : Type) : Type :=
| Done (a : A)
| GetHash (ss : CHashWriter) (k : uint256 -> Hashing A).

Arguments Done {A} a.
Arguments GetHash {A} ss k.

Fixpoint hbind {A B} (m : Hashing A) (f : A -> Hashing B) : Hashing B :=
  match m with
  | Done a => f a
  | GetHash ss k => GetHash ss (fun d => hbind (k d) f)
  end.

Notation "x <- m ;; k" := (hbind m (fun x => k))
  (at level 100, m at next level, right associativity) : hash_scope.

(** Running a computation against the hash primitive [H]. *)
Fixpoint eval {A} (H : list byte -> uint256) (m : Hashing A) : A :=
  match m with
  | Done a => a
  | GetHash ss k => eval H (k (H ss))
  end.

(** The byte streams whose digest a computation asks for, in order, when
    it is run against [H]. *)
Fixpoint hashed {A} (H : list byte -> uint256) (m : Hashing A)
  : list (list byte) :=
  match m with
  | Done _ => []
  | GetHash ss k => ss :: hashed H (k (H ss))
  end.

(** ** Chain, coins and transactions (chain.h, coins.h, primitives) *)

#[local] Unset Elimination Schemes.
Inductive CBlockIndex : Type := mkBlockIndex {
  pprev : option CBlockIndex;
  nHeight : int;
  nFile : int;
  nDataPos : uint32_t;
  nTime : uint32_t;
  nStakeModifier : uint256
}.
#[local] Set Elimination Schemes.

(** [b->nTime] where a parameter named [nTime] is in scope. *)
Abbreviation block_nTime := nTime (only parsing).

Record CDiskTxPos : Type := mkDiskTxPos {
  txFile : int;        (* CDiskBlockPos::nFile *)
  txPos : uint32_t;    (* CDiskBlockPos::nPos *)
  nTxOffset : uint32_t
}.

Record COutPoint : Type := mkOutPoint {
  op_hash : uint256;   (* GetHash() *)
  op_n : uint32_t      (* GetN() *)
}.

Definition CScript := list byte.

(** [Amount] wraps an [int64_t]; [GetSatoshis] reads it. *)
Record Amount : Type := mkAmount { GetSatoshis : int64_t }.

Record CTxOut : Type := mkTxOut {
  nValue : Amount;
  scriptPubKey : CScript
}.

Record Coin : Type := mkCoin {
  out : CTxOut;
  coin_nHeight : int;
  coin_nTime : uint32_t
}.

Record CTxIn : Type := mkTxIn {
  prevout : COutPoint;
  scriptSig : CScript
}.

Record CTransaction : Type := mkTransaction {
  vin : list CTxIn;
  vout : list CTxOut;
  tx_nTime : uint32_t
}.

(** The stake cache entry of pos.h. *)
Record CStakeCache : Type := mkStakeCache {
  blockFromTime : uint32_t;
  amount : Amount
}.

#[global] Instance COutPoint_eq_dec : EqDecision COutPoint.
Proof. solve_decision. Defined.

#[global] Instance COutPoint_countable : Countable COutPoint.
Proof.
  refine (inj_countable' (fun o => (op_hash o, op_n o))
                         (fun p => mkOutPoint (fst p) (snd p)) _).
  intros []; reflexivity.
Defined.

(** [std::map<COutPoint, CStakeCache>]. *)
Abbreviation StakeCacheMap := (gmap COutPoint CStakeCache) (only parsing).

(** [std::map::insert]: inserts only when the key is not yet present. *)
Definition map_insert (cache : StakeCacheMap) (k : COutPoint)
    (v : CStakeCache) : StakeCacheMap :=
  match cache !! k with
  | Some _ => cache
  | None => <[k := v]> cache
  end.

(** ** Validation state (consensus/validation.h) *)

Inductive mode_state : Type := MODE_VALID | MODE_INVALID | MODE_ERROR.

Record CValidationState : Type := mkValidationState {
  mode : mode_state;
  nDoS : int
}.

(** Modelled from the spec: [CValidationState::DoS] is declared in
    consensus/validation.h, which is not among the sources.  It records
    the severity of a failure ("a severity flag requesting the offending
    peer be penalized"): the level is added to the state's score, the
    state becomes invalid, and the given value is returned; a state that
    already holds an internal error keeps its score. *)
Definition DoS (state : CValidationState) (level : int) (ret : bool)
  : bool * CValidationState :=
  match mode state with
  | MODE_ERROR => (ret, state)
  | _ => (ret, {| mode := MODE_INVALID; nDoS := nDoS state + level |})
  end.

(** Consensus parameters read through [Params().GetConsensus()]. *)
Record ConsensusParams : Type := mkParams {
  IsProtocolV2 : int64_t -> bool;
  nStakeTimestampMask : int64_t;
  nStakeMinConfirmations : int
}.

(** A UTXO view, as far as this file uses one: [view.GetCoin(outpoint,
    coin)] either fails or yields the coin. *)
Definition CoinsView := COutPoint -> option Coin.

(** Modelled from the spec: coins.h is not among the sources.  The base
    class [CCoinsView] is the "throwaway empty UTXO view": its [GetCoin]
    fails for every outpoint. *)
Definition CCoinsView : CoinsView := fun _ => None.

(** Modelled from the spec: [CCoinsViewCache view(&base)] is a cache in
    front of [base]; freshly constructed it holds no coin of its own, so
    its [GetCoin] answers what [base] answers. *)
Definition CCoinsViewCache (base : CoinsView) : CoinsView :=
  fun outpoint => base outpoint.

(** The collaborators that pos.cpp calls and that are declared outside
    it: the consensus parameters, the compact-target decoder, the
    ancestor lookup of the block index, the coinstake shape test, the
    script engine and the spent test of a coin. *)
Class Collaborators : Type := {
  (* Params().GetConsensus() *)
  Params : ConsensusParams;
  (* arith_uint256::SetCompact: the decoded value, fNegative, fOverflow *)
  SetCompact : uint32_t -> arith_uint256 * bool * bool;
  (* CBlockIndex::GetAncestor *)
  GetAncestor : CBlockIndex -> int -> option CBlockIndex;
  (* CTransaction::IsCoinStake *)
  IsCoinStake : CTransaction -> bool;
  (* VerifyScript(scriptSig, scriptPubKey, SCRIPT_VERIFY_NONE,
       TransactionSignatureChecker(&tx, nIn, amount), &serror) *)
  VerifyScript : CScript -> CScript -> CTransaction -> nat -> Amount -> bool;
  (* Coin::IsSpent *)
  IsSpent : Coin -> bool
}.

(** ** arith_uint256 *)

(** [arith_uint256(uint64_t b)] applied to an [int64_t]: the argument is
    first converted to [uint64_t]. *)
Definition arith_uint256_of (b : int64_t) : arith_uint256 := b mod two64.

(** [a *= b] on [arith_uint256]: the product modulo [2^256]. *)
Definition arith_mul (a b : arith_uint256) : arith_uint256 :=
  (a * b) mod two256.

Definition UintToArith256 (a : uint256) : arith_uint256 := a.

(** ** pos.cpp *)

Section Pos.
Context {env : Collaborators}.
Local Open Scope hash_scope.

Definition ComputeStakeModifier (pindexPrev : option CBlockIndex)
    (kernel : uint256) : Hashing uint256 :=
  match pindexPrev with
  | None => Done 0 (* genesis block's modifier is 0 *)
  | Some pindexPrev =>
      let ss := CHashWriter_new in
      let ss := ss <<256 kernel <<256 nStakeModifier pindexPrev in
      GetHash ss Done
  end.

Definition CheckCoinStakeTimestamp (nTimeBlock nTimeTx : int64_t) : bool :=
  let params := Params in
  if IsProtocolV2 params nTimeBlock then
    (nTimeBlock =? nTimeTx)
    && (Z.land nTimeTx (nStakeTimestampMask params) =? 0)
  else
    (nTimeBlock =? nTimeTx).

Definition CheckStakeBlockTimestamp (nTimeBlock : int64_t) : bool :=
  CheckCoinStakeTimestamp nTimeBlock nTimeBlock.

Definition CheckStakeKernelHash (pindexPrev : CBlockIndex)
    (nBits nBlockFromTime : uint32_t) (prevOutAmount : Amount)
    (prevout : COutPoint) (nTime : uint32_t) : Hashing bool :=
  if nTime <? nBlockFromTime then (* Transaction timestamp violation *)
    Done false
  else
    (* Base target *)
    let '(bnTarget, fNegative, fOverflow) := SetCompact nBits in
    if fNegative || fOverflow || (bnTarget =? 0) then
      Done false
    else
      (* Weighted target *)
      let nValueIn := GetSatoshis prevOutAmount in
      if nValueIn =? 0 then
        Done false
      else
        let bnWeight := arith_uint256_of nValueIn in
        let bnTarget := arith_mul bnTarget bnWeight in
        let nStakeModifier := nStakeModifier pindexPrev in
        (* Calculate hash *)
        let ss := CHashWriter_new in
        let ss := ss <<256 nStakeModifier in
        let ss := ss <<32 nBlockFromTime <<256 op_hash prevout
                     <<32 op_n prevout <<32 nTime in
        hashProofOfStake <- GetHash ss Done ;;
        (* Now check if proof-of-stake hash meets target protocol *)
        if UintToArith256 hashProofOfStake >? bnTarget then
          Done false
        else
          Done true.

(** The loop of [IsConfirmedInNPrevBlocks], entered with a non-null
    [pindex]; [nActualDepth] is the current value of the out-parameter. *)
Fixpoint IsConfirmedInNPrevBlocks_loop (txindex : CDiskTxPos)
    (pindexFrom : CBlockIndex) (nMaxDepth : int) (nActualDepth : int)
    (pindex : CBlockIndex) : bool * int :=
  if nHeight pindexFrom - nHeight pindex <? nMaxDepth then
    if (nDataPos pindex =? txPos txindex) && (nFile pindex =? txFile txindex)
    then
      (true, nHeight pindexFrom - nHeight pindex)
    else
      match pprev pindex with
      | Some pindex' =>
          IsConfirmedInNPrevBlocks_loop txindex pindexFrom nMaxDepth
            nActualDepth pindex'
      | None => (false, nActualDepth)
      end
  else
    (false, nActualDepth).

(** Returns the verdict and the value of [nActualDepth] afterwards. *)
Definition IsConfirmedInNPrevBlocks (txindex : CDiskTxPos)
    (pindexFrom : option CBlockIndex) (nMaxDepth : int)
    (nActualDepth : int) : bool * int :=
  match pindexFrom with
  | None => (false, nActualDepth)
  | Some pindexFrom' =>
      IsConfirmedInNPrevBlocks_loop txindex pindexFrom' nMaxDepth
        nActualDepth pindexFrom'
  end.

(** Returns [None] where the code reads [tx.vin[0]] of a transaction
    without inputs, and otherwise the verdict with the validation state
    afterwards. *)
Definition CheckProofOfStake (pindexPrev : CBlockIndex) (tx : CTransaction)
    (nBits nTimeBlock : uint32_t) (view : CoinsView)
    (state : CValidationState)
  : option (Hashing (bool * CValidationState)) :=
  if negb (IsCoinStake tx) then
    Some (Done (false, state))
  else
    (* Kernel (input 0) must match the stake hash target (nBits) *)
    match vin tx with
    | [] => None
    | txin :: _ => Some
        match view (prevout txin) with
        | None => Done (DoS state 100 false)
        | Some coinPrev =>
            if nHeight pindexPrev + 1 - coin_nHeight coinPrev
               <? nStakeMinConfirmations Params
            then Done (DoS state 100 false)
            else
              (* Verify script *)
              let kernelPubKey := scriptPubKey (out coinPrev) in
              if negb (VerifyScript (scriptSig txin) kernelPubKey tx 0%nat
                         (nValue (out coinPrev)))
              then Done (DoS state 100 false)
              else
                (* Check kernel *)
                ok <- CheckStakeKernelHash pindexPrev nBits
                        (coin_nTime coinPrev) (nValue (out coinPrev))
                        (prevout txin) nTimeBlock ;;
                if negb ok then Done (DoS state 1 false)
                else Done (true, state)
        end
    end.

(** The branch of [CheckKernel] taken when the outpoint is not in the
    cache (lines 168-182), with the view it consults as an argument. *)
Definition CheckKernel_miss (view : CoinsView) (pindexPrev : CBlockIndex)
    (nBits nTime : uint32_t) (prevout : COutPoint) : Hashing bool :=
  match view prevout with
  | None => Done false
  | Some coinPrev =>
      if nHeight pindexPrev + 1 - coin_nHeight coinPrev
         <? nStakeMinConfirmations Params
      then Done false
      else
        match GetAncestor pindexPrev (coin_nHeight coinPrev) with
        | None => Done false
        | Some blockFrom =>
            if IsSpent coinPrev then Done false
            else
              CheckStakeKernelHash pindexPrev nBits (block_nTime blockFrom)
                (nValue (out coinPrev)) prevout nTime
        end
  end.

(** [pBlockTime] is the cell the pointer refers to, [None] for a null
    pointer; the result carries the cell afterwards. *)
Definition CheckKernel_cached (pindexPrev : CBlockIndex)
    (nBits nTime : uint32_t) (prevout : COutPoint)
    (pBlockTime : option uint32_t) (cache : StakeCacheMap)
  : Hashing (bool * option uint32_t) :=
  let it := cache !! prevout in
  let viewDummy := CCoinsView in
  let view := CCoinsViewCache viewDummy in
  match it with
  | None =>
      r <- CheckKernel_miss view pindexPrev nBits nTime prevout ;;
      Done (r, pBlockTime)
  | Some stake =>
      (* found in cache *)
      let pBlockTime :=
        match pBlockTime with
        | Some _ => Some (blockFromTime stake)
        | None => None
        end in
      r <- CheckStakeKernelHash pindexPrev nBits (blockFromTime stake)
             (amount stake) prevout nTime ;;
      Done (r, pBlockTime)
  end.

(** The overload without a cache. *)
Definition CheckKernel (pindexPrev : CBlockIndex)
    (nBits nTimeBlock : uint32_t) (prevout : COutPoint)
    (pBlockTime : option uint32_t) : Hashing (bool * option uint32_t) :=
  let tmp : StakeCacheMap := ∅ in
  CheckKernel_cached pindexPrev nBits nTimeBlock prevout pBlockTime tmp.

(** Returns the cache afterwards. *)
Definition CacheKernel (cache : StakeCacheMap) (prevout : COutPoint)
    (pindexPrev : CBlockIndex) (view : CoinsView) : StakeCacheMap :=
  match cache !! prevout with
  | Some _ => cache (* already in cache *)
  | None =>
      match view prevout with
      | None => cache
      | Some coinPrev =>
          if nHeight pindexPrev + 1 - coin_nHeight coinPrev
             <? nStakeMinConfirmations Params
          then cache
          else
            match GetAncestor pindexPrev (coin_nHeight coinPrev) with
            | None => cache
            | Some blockFrom =>
                let c := mkStakeCache (nTime blockFrom)
                           (nValue (out coinPrev)) in
                map_insert cache prevout c
            end
      end
  end.

End Pos.

(** ** Reference collaborators

    The functions above are stated against any hash primitive and any
    [Collaborators].  To evaluate them on concrete inputs, this module
    gives a hash primitive and collaborators after the parts of the code
    base that pos.cpp calls. *)

Module Reference.

(** *** The hash primitive: double SHA-256 *)

Definition add32 (a b : Z) : Z := (a + b) mod two32.

Definition rotr (n x : Z) : Z :=
  Z.lor (Z.shiftr x n) ((Z.shiftl x (32 - n)) mod two32).

Definition Ch (x y z : Z) : Z :=
  Z.lxor (Z.land x y) (Z.land (Z.lxor x (two32 - 1)) z).

Definition Maj (x y z : Z) : Z :=
  Z.lxor (Z.lxor (Z.land x y) (Z.land x z)) (Z.land y z).

Definition Sigma0 (x : Z) : Z :=
  Z.lxor (Z.lxor (rotr 2 x) (rotr 13 x)) (rotr 22 x).

Definition Sigma1 (x : Z) : Z :=
  Z.lxor (Z.lxor (rotr 6 x) (rotr 11 x)) (rotr 25 x).

Definition sigma0 (x : Z) : Z :=
  Z.lxor (Z.lxor (rotr 7 x) (rotr 18 x)) (Z.shiftr x 3).

Definition sigma1 (x : Z) : Z :=
  Z.lxor (Z.lxor (rotr 17 x) (rotr 19 x)) (Z.shiftr x 10).

(** Primality by trial division. *)
Definition is_prime (p : Z) : bool :=
  forallb (fun d => negb (p mod Z.of_nat d =? 0)) (seq 2 (Z.to_nat p - 2)).

(** The first 64 primes, 2 to 311. *)
Definition primes64 : list Z :=
  Eval vm_compute in
    filter is_prime (map Z.of_nat (seq 2 310)).

(** The integer cube root of [n < 2^(3*bits)], one bit at a time from
    the top. *)
Fixpoint icbrt (bits : nat) (n r : Z) : Z :=
  match bits with
  | O => r
  | S b =>
      let r' := r + 2 ^ Z.of_nat b in
      icbrt b n (if r' * r' * r' <=? n then r' else r)
  end.

(** The round constants: the first 32 bits of the fractional parts of
    the cube roots of the first 64 primes. *)
Definition sha256_K : list Z :=
  Eval vm_compute in
    map (fun p => icbrt 36 (p * 2 ^ 96) 0 mod two32) primes64.

(** The initial chaining value: the first 32 bits of the fractional
    parts of the square roots of the first 8 primes. *)
Definition sha256_init : list Z :=
  Eval vm_compute in
    map (fun p => Z.sqrt (p * 2 ^ 64) mod two32) (firstn 8 primes64).

(** The 64 rounds on one block.  [w] is the window of the next sixteen
    words of the message schedule; [s] holds the working variables
    a..h. *)
Fixpoint sha256_rounds (ks : list Z) (w : list Z) (s : list Z) : list Z :=
  match ks with
  | [] => s
  | k :: ks' =>
      match s with
      | [a; b; c; d; e; f; g; h] =>
          let wt := nth 0 w 0 in
          let t1 := add32 (add32 (add32 (add32 h (Sigma1 e)) (Ch e f g)) k) wt in
          let t2 := add32 (Sigma0 a) (Maj a b c) in
          let wnew := add32 (add32 (add32 (sigma1 (nth 14 w 0)) (nth 9 w 0))
                                   (sigma0 (nth 1 w 0))) (nth 0 w 0) in
          sha256_rounds ks' (tl w ++ [wnew])
            [add32 t1 t2; a; b; c; add32 d t1; e; f; g]
      | _ => s
      end
  end.

(** Big-endian words of a byte string whose length is a multiple of 4. *)
Fixpoint be_words (bs : list Z) : list Z :=
  match bs with
  | b0 :: b1 :: b2 :: b3 :: bs' =>
      (((b0 * 256 + b1) * 256 + b2) * 256 + b3) :: be_words bs'
  | _ => []
  end.

Definition be_word_bytes (w : Z) : list Z :=
  [Z.shiftr w 24 mod 256; Z.shiftr w 16 mod 256; Z.shiftr w 8 mod 256;
   w mod 256].

Definition sha256_block (h : list Z) (block : list Z) : list Z :=
  let s := sha256_rounds sha256_K block h in
  map (fun p => add32 (fst p) (snd p)) (combine h s).

(** The chaining value after the blocks of sixteen words in [ws]. *)
Fixpoint sha256_blocks (n : nat) (h : list Z) (ws : list Z) : list Z :=
  match n with
  | O => h
  | S n' => sha256_blocks n' (sha256_block h (firstn 16 ws)) (skipn 16 ws)
  end.

Definition sha256_pad (msg : list Z) : list Z :=
  let len := Z.of_nat (length msg) in
  let zeros := repeat 0 (Z.to_nat ((55 - len) mod 64)) in
  let bits := 8 * len in
  msg ++ [128] ++ zeros
      ++ be_word_bytes (Z.shiftr bits 32 mod two32)
      ++ be_word_bytes (bits mod two32).

Definition sha256 (msg : list Z) : list Z :=
  let ws := be_words (sha256_pad msg) in
  let h := sha256_blocks (length ws / 16) sha256_init ws in
  flat_map be_word_bytes h.

(** Modelled from the spec: hash.h is not among the sources.  The "hash
    primitive" behind [CHashWriter::GetHash] is SHA-256 applied twice; the
    32 bytes of the digest are the blob of the resulting [uint256]. *)
Definition Hash256 (ss : list byte) : uint256 :=
  le_value (map byte_of_Z (sha256 (sha256 (map Z_of_byte ss)))).

(** *** The other collaborators *)

(** Modelled from the spec: arith_uint256.cpp is not among the sources.
    [decode_compact(bits) -> (target, is_negative, overflowed)] "expands a
    compact floating-point-like difficulty encoding into a wide unsigned
    integer": the top byte of [nCompact] is the size in bytes, the low 23
    bits the mantissa and bit 23 the sign. *)
Definition arith_SetCompact (nCompact : uint32_t)
  : arith_uint256 * bool * bool :=
  let nSize := Z.shiftr nCompact 24 in
  let nWord := Z.land nCompact 0x007fffff in
  let nWord := if nSize <=? 3 then Z.shiftr nWord (8 * (3 - nSize))
               else nWord in
  let this := if nSize <=? 3 then nWord
              else (Z.shiftl nWord (8 * (nSize - 3))) mod two256 in
  let fNegative :=
    negb (nWord =? 0) && negb (Z.land nCompact 0x00800000 =? 0) in
  let fOverflow :=
    negb (nWord =? 0)
    && ((nSize >? 34) || ((nWord >? 0xff) && (nSize >? 33))
        || ((nWord >? 0xffff) && (nSize >? 32))) in
  (this, fNegative, fOverflow).

(** Modelled from the spec: chain.cpp is not among the sources.
    [ancestor_at_height(block, height) -> Option<BlockRef>] "walks the
    ancestor chain from the prospective parent block back to the exact
    height". *)
Fixpoint ancestor_walk (pindex : CBlockIndex) (height : int)
  : option CBlockIndex :=
  if nHeight pindex =? height then Some pindex
  else
    match pprev pindex with
    | Some pindex' => ancestor_walk pindex' height
    | None => None
    end.

Definition block_GetAncestor (pindex : CBlockIndex) (height : int)
  : option CBlockIndex :=
  if (height >? nHeight pindex) || (height <? 0) then None
  else ancestor_walk pindex height.

(** Modelled from the spec: primitives/transaction.h is not among the
    sources.  A transaction is "structurally a coinstake" when it has an
    input, its first input spends a real output, it has at least two
    outputs and the first output is empty. *)
Definition tx_IsCoinStake (tx : CTransaction) : bool :=
  match vin tx, vout tx with
  | txin :: _, out0 :: _ :: _ =>
      negb ((op_hash (prevout txin) =? 0)
            && (op_n (prevout txin) =? two32 - 1))
      && (GetSatoshis (nValue out0) =? 0)
      && (length (scriptPubKey out0) =? 0)%nat
  | _, _ => false
  end.

(** Modelled from the spec: the script engine is not among the sources
    ([verify(unlock_proof, lock_condition, sighash_context) -> bool]).
    This is the engine on the one pair of scripts the examples use: the
    empty unlocking script against the locking script [OP_TRUE] (0x51)
    verifies; no other pair is claimed to. *)
Definition script_Verify (scriptSig scriptPubKey : CScript)
    (tx : CTransaction) (nIn : nat) (amount : Amount) : bool :=
  match scriptSig, scriptPubKey with
  | [], [x51] => true
  | _, _ => false
  end.

(** Modelled from the spec: coins.h is not among the sources.  A spent
    coin is one whose output is null (its value is -1). *)
Definition coin_IsSpent (coin : Coin) : bool :=
  GetSatoshis (nValue (out coin)) =? -1.

Definition collaborators (params : ConsensusParams) : Collaborators := {|
  Params := params;
  SetCompact := arith_SetCompact;
  GetAncestor := block_GetAncestor;
  IsCoinStake := tx_IsCoinStake;
  VerifyScript := script_Verify;
  IsSpent := coin_IsSpent
|}.

End Reference.

(** ** A sample chain

    Seven blocks, heights 0 to 6, sixteen seconds apart; a coin created
    at height 2; three confirmations required of a stake. *)

Module Sample.

Fixpoint block (h : nat) : CBlockIndex :=
  {| pprev := match h with O => None | S h' => Some (block h') end;
     nHeight := Z.of_nat h;
     nFile := 0;
     nDataPos := 8 + 1000 * Z.of_nat h;
     nTime := 1400000000 + 16 * Z.of_nat h;
     nStakeModifier := Z.of_nat h |}.

Definition tip : CBlockIndex := block 6.

Definition outpoint : COutPoint := {| op_hash := 2; op_n := 0 |}.

(** 0.001 coin, locked by [OP_TRUE], created at height 2. *)
Definition coin : Coin :=
  {| out := {| nValue := mkAmount 100000; scriptPubKey := [x51] |};
     coin_nHeight := 2;
     coin_nTime := 1400000032 |}.

Definition view : CoinsView :=
  fun o => if decide (o = outpoint) then Some coin else None.

Definition coinstake : CTransaction :=
  {| vin := [ {| prevout := outpoint; scriptSig := [] |} ];
     vout := [ {| nValue := mkAmount 0; scriptPubKey := [] |};
               {| nValue := mkAmount 100000; scriptPubKey := [x51] |} ];
     tx_nTime := 1500000032 |}.

(** Consensus parameters of the kind chainparams.cpp sets: the second
    protocol from a fixed time on, timestamps on multiples of 16 seconds,
    [minconf] confirmations for a stake. *)
Definition params_conf (minconf : int) : ConsensusParams := {|
  IsProtocolV2 := fun nTime => nTime >? 1407053625;
  nStakeTimestampMask := 15;
  nStakeMinConfirmations := minconf
|}.

Definition env_conf (minconf : int) : Collaborators :=
  Reference.collaborators (params_conf minconf).

Definition params : ConsensusParams := params_conf 3.

Definition env : Collaborators := env_conf 3.

Definition state0 : CValidationState := {| mode := MODE_VALID; nDoS := 0 |}.

(** The easiest stake target of the sample network, mantissa 0x0fffff
    and size 0x1e: 0xfffff * 2^216. *)
Definition nBits : uint32_t := 0x1e0fffff.

End Sample.

(** ** More sample data *)

Module SampleMore.

(** A second outpoint, with no coin in the sample view. *)
Definition other_outpoint : COutPoint := {| op_hash := 3; op_n := 0 |}.

(** A spent coin: its output is null. *)
Definition spent_coin : Coin :=
  {| out := {| nValue := mkAmount (-1); scriptPubKey := [] |};
     coin_nHeight := 2;
     coin_nTime := 1400000032 |}.

(** A view that still holds the spent coin under the sample outpoint. *)
Definition spent_view : CoinsView :=
  fun o => if decide (o = Sample.outpoint) then Some spent_coin else None.

(** The first input of the sample coinstake. *)
Definition txin : CTxIn := {| prevout := Sample.outpoint; scriptSig := [] |}.

(** A block with the stake modifier of the sample tip and nothing else
    in common with it. *)
Definition detached_block : CBlockIndex :=
  {| pprev := None; nHeight := 0; nFile := 9; nDataPos := 9; nTime := 9;
     nStakeModifier := 6 |}.

End SampleMore.

(** ** Statements compared with the code *)

(** The kernel rule with the weighted target read as the product of
    integers: given that the timestamp, decode and amount checks pass,
    the check accepts exactly when the digest is at most the decoded
    target times the amount. *)
Definition kernel_rule_integer_product {env : Collaborators}
    (H : list byte -> uint256) (pindexPrev : CBlockIndex)
    (nBits nBlockFromTime : uint32_t) (prevOutAmount : Amount)
    (prevout : COutPoint) (nTime : uint32_t) : Prop :=
  nBlockFromTime <= nTime ->
  snd (fst (SetCompact nBits)) = false ->
  snd (SetCompact nBits) = false ->
  fst (fst (SetCompact nBits)) <> 0 ->
  GetSatoshis prevOutAmount <> 0 ->
  (eval H (CheckStakeKernelHash pindexPrev nBits nBlockFromTime
             prevOutAmount prevout nTime) = true
   <-> H (le_bytes 32 (nStakeModifier pindexPrev)
          ++ le_bytes 4 nBlockFromTime ++ le_bytes 32 (op_hash prevout)
          ++ le_bytes 4 (op_n prevout) ++ le_bytes 4 nTime)
       <= fst (fst (SetCompact nBits)) * GetSatoshis prevOutAmount).

(** The blocks [IsConfirmedInNPrevBlocks] walks from [pindex]: the block
    itself, then its ancestors through [pprev]. *)
Fixpoint ancestors (pindex : CBlockIndex) : list CBlockIndex :=
  pindex :: match pprev pindex with
            | Some pindex' => ancestors pindex'
            | None => []
            end.

(** A block index as the chain builds it: every block is one higher than
    its predecessor. *)
Fixpoint linked (pindex : CBlockIndex) : Prop :=
  match pprev pindex with
  | Some pindex' => nHeight pindex' = nHeight pindex - 1 /\ linked pindex'
  | None => True
  end.

(** The recorded position of a block is the transaction's position. *)
Definition at_position (txindex : CDiskTxPos) (pindex : CBlockIndex) : Prop :=
  nDataPos pindex = txPos txindex /\ nFile pindex = txFile txindex.

(** The membership check read without regard to the window: a position
    equal to the starting block's own position is found at depth 0. *)
Definition own_position_found_at_depth_0 (txindex : CDiskTxPos)
    (pindexFrom : CBlockIndex) (nMaxDepth nActualDepth : int) : Prop :=
  at_position txindex pindexFrom ->
  IsConfirmedInNPrevBlocks txindex (Some pindexFrom) nMaxDepth nActualDepth
  = (true, 0).

(** The maturity rule in the specification's words: accept iff
    [chain_tip_height + 1 - coin_creation_height >= min_confirmations]. *)
Definition MaturityCheck_resolve
    (chain_tip_height coin_creation_height min_confirmations : int) : bool :=
  chain_tip_height + 1 - coin_creation_height >=? min_confirmations.

Section CacheEntries.
Context {env : Collaborators}.

(** What [CacheKernel] resolves for an outpoint that is not cached yet
    (lines 200-211): the entry it inserts, or [None] where it returns
    without inserting. *)
Definition kernel_entry (prevout : COutPoint) (pindexPrev : CBlockIndex)
    (view : CoinsView) : option CStakeCache :=
  match view prevout with
  | None => None
  | Some coinPrev =>
      if nHeight pindexPrev + 1 - coin_nHeight coinPrev
         <? nStakeMinConfirmations Params
      then None
      else
        match GetAncestor pindexPrev (coin_nHeight coinPrev) with
        | None => None
        | Some blockFrom =>
            Some (mkStakeCache (nTime blockFrom) (nValue (out coinPrev)))
        end
  end.

(** Every entry of the cache is what the view and the chain below
    [pindexPrev] give for its outpoint: the coin is in the view, it has
    the required confirmations, and the entry holds the time of its
    creation block and its amount. *)
Definition cache_sound (view : CoinsView) (pindexPrev : CBlockIndex)
    (cache : StakeCacheMap) : Prop :=
  forall prevout stake,
    cache !! prevout = Some stake ->
    exists coinPrev blockFrom,
      view prevout = Some coinPrev
      /\ nStakeMinConfirmations Params
         <= nHeight pindexPrev + 1 - coin_nHeight coinPrev
      /\ GetAncestor pindexPrev (coin_nHeight coinPrev) = Some blockFrom
      /\ stake = mkStakeCache (nTime blockFrom) (nValue (out coinPrev)).

End CacheEntries.

(** * Properties *)

Section Properties.
Context {env : Collaborators}.

(** ** Computations against the hash primitive *)

Lemma eval_hbind {A B} (H : list byte -> uint256) (m : Hashing A)
    (f : A -> Hashing B) :
  eval H (hbind m f) = eval H (f (eval H m)).
Proof.
  induction m as [a | ss k IH]; simpl; [reflexivity | apply IH].
Qed.

Lemma hashed_hbind {A B} (H : list byte -> uint256) (m : Hashing A)
    (f : A -> Hashing B) :
  hashed H (hbind m f) = hashed H m ++ hashed H (f (eval H m)).
Proof.
  induction m as [a | ss k IH]; simpl; [reflexivity | now rewrite IH].
Qed.

(** ** The kernel hash check *)

(** The byte stream [CheckStakeKernelHash] hashes. *)
Lemma CheckStakeKernelHash_cases pindexPrev nBits nBlockFromTime
    prevOutAmount prevout nTime :
  CheckStakeKernelHash pindexPrev nBits nBlockFromTime prevOutAmount
    prevout nTime
  = if (nTime <? nBlockFromTime)
       || (snd (fst (SetCompact nBits)) || snd (SetCompact nBits)
           || (fst (fst (SetCompact nBits)) =? 0))
       || (GetSatoshis prevOutAmount =? 0)
    then Done false
    else
      GetHash
        (le_bytes 32 (nStakeModifier pindexPrev) ++ le_bytes 4 nBlockFromTime
         ++ le_bytes 32 (op_hash prevout) ++ le_bytes 4 (op_n prevout)
         ++ le_bytes 4 nTime)
        (fun d =>
           if d >? arith_mul (fst (fst (SetCompact nBits)))
                     (arith_uint256_of (GetSatoshis prevOutAmount))
           then Done false else Done true).
Proof.
  unfold CheckStakeKernelHash.
  destruct (nTime <? nBlockFromTime); [reflexivity |].
  destruct (SetCompact nBits) as [[bnTarget fNegative] fOverflow]; simpl.
  destruct (fNegative || fOverflow || (bnTarget =? 0)); [reflexivity |].
  destruct (GetSatoshis prevOutAmount =? 0); [reflexivity |].
  unfold put_uint32, put_uint256, CHashWriter_new, UintToArith256.
  cbn [hbind app]. rewrite <- !app_assoc. reflexivity.
Qed.

(** C5: [CheckStakeKernelHash] rejects whenever the candidate time is
    before the coin's creation-block time, or the compact target decodes
    as negative, overflowed or zero, or the amount is zero; the rejection
    is returned without asking for any digest. *)
Theorem CheckStakeKernelHash_rejects_early pindexPrev nBits nBlockFromTime
    prevOutAmount prevout nTime :
  nTime < nBlockFromTime
  \/ snd (fst (SetCompact nBits)) = true
  \/ snd (SetCompact nBits) = true
  \/ fst (fst (SetCompact nBits)) = 0
  \/ GetSatoshis prevOutAmount = 0 ->
  CheckStakeKernelHash pindexPrev nBits nBlockFromTime prevOutAmount
    prevout nTime = Done false
  /\ forall H,
       eval H (CheckStakeKernelHash pindexPrev nBits nBlockFromTime
                 prevOutAmount prevout nTime) = false
       /\ hashed H (CheckStakeKernelHash pindexPrev nBits nBlockFromTime
                      prevOutAmount prevout nTime) = [].
Proof.
  intros Hpre.
  assert (Hdone : CheckStakeKernelHash pindexPrev nBits nBlockFromTime
                    prevOutAmount prevout nTime = Done false).
  { rewrite CheckStakeKernelHash_cases.
    match goal with
    | |- (if ?c then _ else _) = _ => assert (Hc : c = true)
    end.
    { rewrite !orb_true_iff, Z.ltb_lt, !Z.eqb_eq. tauto. }
    now rewrite Hc. }
  split; [exact Hdone |].
  intros H. rewrite Hdone. split; reflexivity.
Qed.

(** What the code computes when the timestamp, decode and amount checks
    pass: [CheckStakeKernelHash] asks for exactly one digest, that of the
    stake modifier, the creation time, the outpoint hash, the outpoint
    index and the candidate time serialized in this order, and accepts
    exactly when the digest is less than or equal to the product of the
    decoded target and the amount (read as unsigned 64-bit) reduced
    modulo 2^256; when that product does not wrap and the amount is
    positive, this is the plain product. *)
Theorem CheckStakeKernelHash_accepts_iff pindexPrev nBits nBlockFromTime
    prevOutAmount prevout nTime H :
  nBlockFromTime <= nTime ->
  snd (fst (SetCompact nBits)) = false ->
  snd (SetCompact nBits) = false ->
  fst (fst (SetCompact nBits)) <> 0 ->
  GetSatoshis prevOutAmount <> 0 ->
  let bnTarget := fst (fst (SetCompact nBits)) in
  let nValueIn := GetSatoshis prevOutAmount in
  let ss := le_bytes 32 (nStakeModifier pindexPrev)
            ++ le_bytes 4 nBlockFromTime ++ le_bytes 32 (op_hash prevout)
            ++ le_bytes 4 (op_n prevout) ++ le_bytes 4 nTime in
  let m := CheckStakeKernelHash pindexPrev nBits nBlockFromTime
             prevOutAmount prevout nTime in
  hashed H m = [ss]
  /\ (eval H m = true
      <-> H ss <= (bnTarget * (nValueIn mod 2 ^ 64)) mod 2 ^ 256)
  /\ (0 <= bnTarget -> 0 < nValueIn < 2 ^ 64 ->
      bnTarget * nValueIn < 2 ^ 256 ->
      (eval H m = true <-> H ss <= bnTarget * nValueIn)).
Proof.
  intros Ht Hn Ho Hz Ha bnTarget nValueIn ss m.
  assert (Hm : m = GetHash ss (fun d =>
                 if d >? arith_mul bnTarget (arith_uint256_of nValueIn)
                 then Done false else Done true)).
  { subst m. rewrite CheckStakeKernelHash_cases.
    apply Z.ltb_ge in Ht. rewrite Ht, Hn, Ho.
    apply Z.eqb_neq in Hz, Ha. rewrite Hz, Ha. reflexivity. }
  assert (Hev : eval H m = true
                <-> H ss <= (bnTarget * (nValueIn mod 2 ^ 64)) mod 2 ^ 256).
  { rewrite Hm. simpl. unfold arith_mul, arith_uint256_of, two256, two64.
    destruct (Z.gtb_spec (H ss)
                ((bnTarget * (nValueIn mod 2 ^ 64)) mod 2 ^ 256));
      simpl; split; intros; try lia; try discriminate; reflexivity. }
  split; [| split; [exact Hev |]].
  { rewrite Hm. cbn [hashed]. now destruct (_ >? _). }
  intros Hb Hv Hp. rewrite Hev.
  rewrite (Z.mod_small nValueIn) by lia.
  rewrite Z.mod_small by nia. reflexivity.
Qed.

(** C7: [ComputeStakeModifier] returns the zero value, asking for no
    digest, when there is no parent block; otherwise it returns the
    digest of the kernel hash followed by the parent's stake modifier,
    and two parents with the same stake modifier give the same result. *)
Theorem ComputeStakeModifier_spec H kernel :
  ComputeStakeModifier None kernel = Done 0
  /\ (forall pindexPrev,
        eval H (ComputeStakeModifier (Some pindexPrev) kernel)
        = H (le_bytes 32 kernel ++ le_bytes 32 (nStakeModifier pindexPrev))
        /\ hashed H (ComputeStakeModifier (Some pindexPrev) kernel)
           = [le_bytes 32 kernel
              ++ le_bytes 32 (nStakeModifier pindexPrev)])
  /\ (forall p q,
        nStakeModifier p = nStakeModifier q ->
        ComputeStakeModifier (Some p) kernel
        = ComputeStakeModifier (Some q) kernel).
Proof.
  split; [reflexivity | split].
  - intros pindexPrev. split; reflexivity.
  - intros p q Hpq. unfold ComputeStakeModifier. now rewrite Hpq.
Qed.

(** C8: [CheckCoinStakeTimestamp] holds exactly when the block time
    equals the transaction time and, under the second protocol, the
    transaction time has no bit of the timestamp mask set; the
    header-only [CheckStakeBlockTimestamp t] is
    [CheckCoinStakeTimestamp t t]. *)
Theorem CheckCoinStakeTimestamp_spec nTimeBlock nTimeTx :
  (CheckCoinStakeTimestamp nTimeBlock nTimeTx = true
   <-> nTimeBlock = nTimeTx
       /\ if IsProtocolV2 Params nTimeBlock
          then Z.land nTimeTx (nStakeTimestampMask Params) = 0
          else True)
  /\ CheckStakeBlockTimestamp nTimeBlock
     = CheckCoinStakeTimestamp nTimeBlock nTimeBlock.
Proof.
  split; [| reflexivity].
  unfold CheckCoinStakeTimestamp.
  destruct (IsProtocolV2 Params nTimeBlock).
  - rewrite andb_true_iff, !Z.eqb_eq. reflexivity.
  - rewrite Z.eqb_eq. tauto.
Qed.

(** ** The membership check *)

(** Induction along [pprev]. *)
Fixpoint CBlockIndex_pprev_ind (P : CBlockIndex -> Prop)
    (step : forall pindex,
        (forall pindex', pprev pindex = Some pindex' -> P pindex') ->
        P pindex)
    (pindex : CBlockIndex) {struct pindex} : P pindex.
Proof.
  apply step. destruct pindex as [[pindex' |] h f d t m]; simpl.
  - intros q Hq. injection Hq as <-.
    exact (CBlockIndex_pprev_ind P step pindex').
  - intros q Hq. discriminate Hq.
Defined.

Lemma IsConfirmedInNPrevBlocks_loop_eq txindex pindexFrom nMaxDepth
    nActualDepth pindex :
  IsConfirmedInNPrevBlocks_loop txindex pindexFrom nMaxDepth nActualDepth
    pindex
  = if nHeight pindexFrom - nHeight pindex <? nMaxDepth then
      if (nDataPos pindex =? txPos txindex)
         && (nFile pindex =? txFile txindex)
      then (true, nHeight pindexFrom - nHeight pindex)
      else
        match pprev pindex with
        | Some pindex' =>
            IsConfirmedInNPrevBlocks_loop txindex pindexFrom nMaxDepth
              nActualDepth pindex'
        | None => (false, nActualDepth)
        end
    else (false, nActualDepth).
Proof. destruct pindex; reflexivity. Qed.

Lemma at_position_eqb txindex pindex :
  (nDataPos pindex =? txPos txindex) && (nFile pindex =? txFile txindex)
  = true <-> at_position txindex pindex.
Proof.
  unfold at_position. now rewrite andb_true_iff, !Z.eqb_eq.
Qed.

Lemma ancestors_eq pindex :
  ancestors pindex
  = pindex :: match pprev pindex with
              | Some pindex' => ancestors pindex'
              | None => []
              end.
Proof. destruct pindex; reflexivity. Qed.

Lemma linked_eq pindex :
  linked pindex
  <-> match pprev pindex with
      | Some pindex' => nHeight pindex' = nHeight pindex - 1 /\ linked pindex'
      | None => True
      end.
Proof. destruct pindex; reflexivity. Qed.

(** The loop entered at the block [k] steps below [pindexFrom]. *)
Lemma IsConfirmedInNPrevBlocks_loop_spec txindex pindexFrom nMaxDepth
    nActualDepth pindex :
  forall k : nat,
    linked pindex ->
    nHeight pindexFrom - nHeight pindex = Z.of_nat k ->
    (forall (n : nat) b,
        ancestors pindex !! n = Some b ->
        Z.of_nat (k + n) < nMaxDepth ->
        at_position txindex b ->
        (forall (i : nat) b',
            (i < n)%nat -> ancestors pindex !! i = Some b' ->
            ~ at_position txindex b') ->
        IsConfirmedInNPrevBlocks_loop txindex pindexFrom nMaxDepth
          nActualDepth pindex = (true, Z.of_nat (k + n)))
    /\ ((forall (n : nat) b,
            ancestors pindex !! n = Some b ->
            Z.of_nat (k + n) < nMaxDepth ->
            ~ at_position txindex b) ->
        IsConfirmedInNPrevBlocks_loop txindex pindexFrom nMaxDepth
          nActualDepth pindex = (false, nActualDepth)).
Proof.
  induction pindex as [pindex IH] using CBlockIndex_pprev_ind.
  intros k Hlinked Hk.
  rewrite IsConfirmedInNPrevBlocks_loop_eq, Hk.
  rewrite ancestors_eq. apply linked_eq in Hlinked.
  split.
  - intros n b Hb Hn Hat Hfirst.
    assert (Hin : (Z.of_nat k <? nMaxDepth) = true) by (apply Z.ltb_lt; lia).
    rewrite Hin.
    destruct n as [| n].
    + injection Hb as <-.
      apply at_position_eqb in Hat. rewrite Hat.
      now rewrite Nat.add_0_r.
    + assert (Hno : ~ at_position txindex pindex).
      { apply (Hfirst 0%nat); [lia | reflexivity]. }
      rewrite <- at_position_eqb in Hno.
      apply not_true_is_false in Hno. rewrite Hno.
      destruct (pprev pindex) as [pindex' |] eqn:Hprev;
        [| discriminate Hb].
      destruct Hlinked as [Hh Hl].
      destruct (IH pindex' eq_refl (S k) Hl) as [IHfound _]; [lia |].
      replace (k + S n)%nat with (S k + n)%nat by lia.
      apply (IHfound n b Hb); [lia | exact Hat |].
      intros i b' Hi Hb'. apply (Hfirst (S i)); [lia | exact Hb'].
  - intros Hnone.
    destruct (Z.ltb_spec (Z.of_nat k) nMaxDepth) as [Hin |];
      [| reflexivity].
    assert (Hno : ~ at_position txindex pindex).
    { apply (Hnone 0%nat); [reflexivity | lia]. }
    rewrite <- at_position_eqb in Hno.
    apply not_true_is_false in Hno. rewrite Hno.
    destruct (pprev pindex) as [pindex' |] eqn:Hprev; [| reflexivity].
    destruct Hlinked as [Hh Hl].
    destruct (IH pindex' eq_refl (S k) Hl) as [_ IHnone]; [lia |].
    apply IHnone. intros n b Hb Hn.
    apply (Hnone (S n) b Hb). lia.
Qed.

(** C9 as amended: on a block index whose heights follow [pprev],
    [IsConfirmedInNPrevBlocks] finds a position equal to the starting
    block's own position at depth 0 when [nMaxDepth] is at least 1;
    it returns the depth of the shallowest block among the starting
    block and its ancestors, fewer than [nMaxDepth] steps back, whose
    file and data position both match; and it reports no match, leaving
    the depth untouched, when no block in that window matches. *)
Theorem IsConfirmedInNPrevBlocks_spec txindex pindexFrom nMaxDepth
    nActualDepth :
  linked pindexFrom ->
  (0 < nMaxDepth -> at_position txindex pindexFrom ->
   IsConfirmedInNPrevBlocks txindex (Some pindexFrom) nMaxDepth nActualDepth
   = (true, 0))
  /\ (forall (n : nat) b,
        ancestors pindexFrom !! n = Some b ->
        Z.of_nat n < nMaxDepth ->
        at_position txindex b ->
        (forall (i : nat) b',
            (i < n)%nat -> ancestors pindexFrom !! i = Some b' ->
            ~ at_position txindex b') ->
        IsConfirmedInNPrevBlocks txindex (Some pindexFrom) nMaxDepth
          nActualDepth = (true, Z.of_nat n))
  /\ ((forall (n : nat) b,
          ancestors pindexFrom !! n = Some b ->
          Z.of_nat n < nMaxDepth ->
          ~ at_position txindex b) ->
      IsConfirmedInNPrevBlocks txindex (Some pindexFrom) nMaxDepth
        nActualDepth = (false, nActualDepth)).
Proof.
  intros Hlinked. unfold IsConfirmedInNPrevBlocks.
  destruct (IsConfirmedInNPrevBlocks_loop_spec txindex pindexFrom nMaxDepth
              nActualDepth pindexFrom 0%nat Hlinked) as [Hfound Hnone];
    [lia |].
  split; [| split].
  - intros Hpos Hat.
    apply (Hfound 0%nat pindexFrom); [now rewrite ancestors_eq | lia | exact Hat |].
    intros i b' Hi. lia.
  - intros n b Hb Hn Hat Hfirst. now apply (Hfound n b).
  - intros Hno. apply Hnone. intros n b Hb Hn. now apply (Hno n b).
Qed.

(** ** The stake cache *)

Lemma map_insert_fresh (cache : gmap COutPoint CStakeCache) k v :
  cache !! k = None -> map_insert cache k v = <[k := v]> cache.
Proof. intros Hk. unfold map_insert. now rewrite Hk. Qed.

Lemma map_insert_keeps (cache : gmap COutPoint CStakeCache) k v k' v' :
  cache !! k' = Some v' -> map_insert cache k v !! k' = Some v'.
Proof.
  intros Hk'. unfold map_insert.
  destruct (cache !! k) eqn:Hk; [exact Hk' |].
  rewrite lookup_insert_ne; [exact Hk' | congruence].
Qed.

(** C10: [CacheKernel] leaves the cache as it is when the outpoint is
    already cached, when the coin is not in the view, when the coin is
    not mature and when its creation block is not found; otherwise it
    adds the creation block's time and the coin's amount under the
    outpoint.  A changed cache means all of these steps succeeded, and
    every entry of the cache before is an entry of the cache after. *)
Theorem CacheKernel_write_once (cache : gmap COutPoint CStakeCache)
    prevout pindexPrev (view : CoinsView) :
  (is_Some (cache !! prevout) ->
   CacheKernel cache prevout pindexPrev view = cache)
  /\ (view prevout = None ->
      CacheKernel cache prevout pindexPrev view = cache)
  /\ (forall coinPrev,
        view prevout = Some coinPrev ->
        nHeight pindexPrev + 1 - coin_nHeight coinPrev
        < nStakeMinConfirmations Params ->
        CacheKernel cache prevout pindexPrev view = cache)
  /\ (forall coinPrev,
        view prevout = Some coinPrev ->
        GetAncestor pindexPrev (coin_nHeight coinPrev) = None ->
        CacheKernel cache prevout pindexPrev view = cache)
  /\ (forall coinPrev blockFrom,
        cache !! prevout = None ->
        view prevout = Some coinPrev ->
        nStakeMinConfirmations Params
        <= nHeight pindexPrev + 1 - coin_nHeight coinPrev ->
        GetAncestor pindexPrev (coin_nHeight coinPrev) = Some blockFrom ->
        CacheKernel cache prevout pindexPrev view
        = <[prevout := {| blockFromTime := nTime blockFrom;
                          amount := nValue (out coinPrev) |}]> cache)
  /\ (CacheKernel cache prevout pindexPrev view <> cache ->
      exists coinPrev blockFrom,
        cache !! prevout = None
        /\ view prevout = Some coinPrev
        /\ nStakeMinConfirmations Params
           <= nHeight pindexPrev + 1 - coin_nHeight coinPrev
        /\ GetAncestor pindexPrev (coin_nHeight coinPrev) = Some blockFrom
        /\ CacheKernel cache prevout pindexPrev view
           = <[prevout := {| blockFromTime := nTime blockFrom;
                             amount := nValue (out coinPrev) |}]> cache)
  /\ (forall k v,
        cache !! k = Some v ->
        CacheKernel cache prevout pindexPrev view !! k = Some v).
Proof.
  unfold CacheKernel.
  repeat split.
  - intros [v Hv]. now rewrite Hv.
  - intros Hview. rewrite Hview. now destruct (cache !! prevout).
  - intros coinPrev Hview Himm. rewrite Hview.
    apply Z.ltb_lt in Himm. rewrite Himm. now destruct (cache !! prevout).
  - intros coinPrev Hview Hanc. rewrite Hview, Hanc.
    destruct (cache !! prevout); [reflexivity |].
    now destruct (_ <? _).
  - intros coinPrev blockFrom Hfresh Hview Hmat Hanc.
    rewrite Hfresh, Hview, Hanc.
    apply Z.ltb_ge in Hmat. rewrite Hmat.
    now apply map_insert_fresh.
  - intros Hchanged.
    destruct (cache !! prevout) eqn:Hfresh; [congruence |].
    destruct (view prevout) as [coinPrev |]; [| congruence].
    destruct (Z.ltb_spec (nHeight pindexPrev + 1 - coin_nHeight coinPrev)
                (nStakeMinConfirmations Params)) as [| Hmat];
      [congruence |].
    destruct (GetAncestor pindexPrev (coin_nHeight coinPrev))
      as [blockFrom |] eqn:Hanc; [| congruence].
    exists coinPrev, blockFrom.
    repeat split; try assumption; try reflexivity.
    now apply map_insert_fresh.
  - intros k v Hk.
    destruct (cache !! prevout); [exact Hk |].
    destruct (view prevout) as [coinPrev |]; [| exact Hk].
    destruct (_ <? _); [exact Hk |].
    destruct (GetAncestor _ _); [| exact Hk].
    now apply map_insert_keeps.
Qed.

(** ** The kernel check with and without the cache *)

Lemma CheckKernel_cached_miss pindexPrev nBits nTime prevout pBlockTime
    (cache : gmap COutPoint CStakeCache) :
  cache !! prevout = None ->
  CheckKernel_cached pindexPrev nBits nTime prevout pBlockTime cache
  = Done (false, pBlockTime).
Proof.
  intros Hmiss. unfold CheckKernel_cached. now rewrite Hmiss.
Qed.

Lemma CheckKernel_cached_hit H pindexPrev nBits nTime prevout pBlockTime
    (cache : gmap COutPoint CStakeCache) stake :
  cache !! prevout = Some stake ->
  fst (eval H (CheckKernel_cached pindexPrev nBits nTime prevout pBlockTime
                 cache))
  = eval H (CheckStakeKernelHash pindexPrev nBits (blockFromTime stake)
              (amount stake) prevout nTime).
Proof.
  intros Hhit. unfold CheckKernel_cached. rewrite Hhit.
  now rewrite eval_hbind.
Qed.

(** C2: the view that [CheckKernel] consults on a cache miss holds no
    coin, so for an outpoint that is not in the cache the cached
    [CheckKernel] returns false, without asking for a digest and leaving
    [*pBlockTime] alone; the overload without a cache always does. *)
Theorem CheckKernel_miss_rejects pindexPrev nBits nTime prevout pBlockTime
    (cache : gmap COutPoint CStakeCache) :
  cache !! prevout = None ->
  (forall outpoint, CCoinsViewCache CCoinsView outpoint = None)
  /\ CheckKernel_cached pindexPrev nBits nTime prevout pBlockTime cache
     = Done (false, pBlockTime)
  /\ forall pindexPrev' nBits' nTime' prevout' pBlockTime',
       CheckKernel pindexPrev' nBits' nTime' prevout' pBlockTime'
       = Done (false, pBlockTime').
Proof.
  intros Hmiss. split; [reflexivity | split].
  - now apply CheckKernel_cached_miss.
  - intros. unfold CheckKernel. now apply CheckKernel_cached_miss.
Qed.

(** ** The coinstake check *)

Lemma DoS_fst state level ret : fst (DoS state level ret) = ret.
Proof. unfold DoS. now destruct (mode state). Qed.

(** On a state that holds no internal error, [DoS] adds the level to the
    score and marks the state invalid. *)
Lemma DoS_penalty state level :
  mode state <> MODE_ERROR ->
  DoS state level false
  = (false, {| mode := MODE_INVALID; nDoS := nDoS state + level |}).
Proof. unfold DoS. now destruct (mode state). Qed.

(** Splits a statement about the outcome into its cases and closes those
    that contradict the branch at hand. *)
Ltac pos_cases :=
  repeat match goal with
         | |- _ /\ _ => split
         | |- _ <-> _ => split
         | |- forall _, _ => intro
         | H : _ /\ _ |- _ => destruct H
         | H : exists _, _ |- _ => destruct H
         | H : Some _ = Some _ |- _ => injection H as <-
         | H : context [fst (DoS _ _ _)] |- _ => rewrite DoS_fst in H
         end;
  try discriminate; try congruence; try lia; try reflexivity.

(** C4: [CheckProofOfStake] accepts, leaving the validation state as it
    was, exactly when the transaction is a coinstake, the coin its first
    input refers to is in the view, that coin has the required
    confirmations at the parent's height plus one, the script of the
    input verifies and the kernel hash check passes.  A missing coin, an
    immature coin and a failed script are reported to the validation
    state with [DoS] level 100, a failed kernel hash check with level 1;
    a transaction that is not a coinstake is rejected without a report. *)
Theorem CheckProofOfStake_spec H pindexPrev tx nBits nTimeBlock
    (view : CoinsView) state txin rest :
  (IsCoinStake tx = true -> vin tx = txin :: rest) ->
  exists m,
    CheckProofOfStake pindexPrev tx nBits nTimeBlock view state = Some m
    /\ let r := eval H m in
       let confirmations coinPrev :=
         nHeight pindexPrev + 1 - coin_nHeight coinPrev in
       let script coinPrev :=
         VerifyScript (scriptSig txin) (scriptPubKey (out coinPrev)) tx
           0%nat (nValue (out coinPrev)) in
       let kernel coinPrev :=
         eval H (CheckStakeKernelHash pindexPrev nBits (coin_nTime coinPrev)
                   (nValue (out coinPrev)) (prevout txin) nTimeBlock) in
       (fst r = true
        <-> IsCoinStake tx = true
            /\ exists coinPrev,
                view (prevout txin) = Some coinPrev
                /\ nStakeMinConfirmations Params <= confirmations coinPrev
                /\ script coinPrev = true
                /\ kernel coinPrev = true)
       /\ (fst r = true -> snd r = state)
       /\ (IsCoinStake tx = false -> r = (false, state))
       /\ (IsCoinStake tx = true -> view (prevout txin) = None ->
           r = DoS state 100 false)
       /\ (forall coinPrev,
             IsCoinStake tx = true ->
             view (prevout txin) = Some coinPrev ->
             confirmations coinPrev < nStakeMinConfirmations Params ->
             r = DoS state 100 false)
       /\ (forall coinPrev,
             IsCoinStake tx = true ->
             view (prevout txin) = Some coinPrev ->
             nStakeMinConfirmations Params <= confirmations coinPrev ->
             script coinPrev = false ->
             r = DoS state 100 false)
       /\ (forall coinPrev,
             IsCoinStake tx = true ->
             view (prevout txin) = Some coinPrev ->
             nStakeMinConfirmations Params <= confirmations coinPrev ->
             script coinPrev = true ->
             kernel coinPrev = false ->
             r = DoS state 1 false).
Proof.
  intros Hvin. unfold CheckProofOfStake.
  destruct (IsCoinStake tx) eqn:Hcs; cbn [negb].
  2:{ eexists; split; [reflexivity |]. cbn. pos_cases. }
  rewrite (Hvin eq_refl).
  eexists; split; [reflexivity |]. cbv zeta.
  destruct (view (prevout txin)) as [coinPrev |] eqn:Hview.
  2:{ cbn [eval]. pos_cases. }
  destruct (Z.ltb_spec (nHeight pindexPrev + 1 - coin_nHeight coinPrev)
              (nStakeMinConfirmations Params)) as [Himm | Hmat].
  { cbn [eval]. pos_cases. }
  destruct (VerifyScript (scriptSig txin) (scriptPubKey (out coinPrev)) tx
              0%nat (nValue (out coinPrev))) eqn:Hscript; cbn [negb].
  2:{ cbn [eval]. pos_cases. }
  rewrite eval_hbind.
  destruct (eval H (CheckStakeKernelHash pindexPrev nBits
              (coin_nTime coinPrev) (nValue (out coinPrev)) (prevout txin)
              nTimeBlock)) eqn:Hkernel; cbn [negb eval].
  - cbn. pos_cases. exists coinPrev. repeat split; assumption.
  - pos_cases.
Qed.

(** ** Maturity *)

Lemma MaturityCheck_resolve_ltb tip h minconf :
  (tip + 1 - h <? minconf) = negb (MaturityCheck_resolve tip h minconf).
Proof.
  unfold MaturityCheck_resolve.
  destruct (Z.ltb_spec (tip + 1 - h) minconf),
           (Z.geb_spec (tip + 1 - h) minconf); simpl; lia || reflexivity.
Qed.

(** The maturity test as it is written at lines 140, 172 and 204: it
    passes exactly when the parent's height plus one minus the coin's
    creation height is at least the minimum number of confirmations;
    [CheckProofOfStake], the branch [CheckKernel_miss] and [CacheKernel]
    each go on past the test when it passes and reject (score 100, false,
    cache unchanged) when it fails.  Inside [CheckKernel] the branch is
    only run on the empty view, where it returns before the test. *)
Theorem maturity_check_enforced :
  (forall tip h minconf,
      (MaturityCheck_resolve tip h minconf = true <-> minconf <= tip + 1 - h)
      /\ (tip + 1 - h = minconf -> MaturityCheck_resolve tip h minconf = true)
      /\ (tip + 1 - h = minconf - 1 ->
          MaturityCheck_resolve tip h minconf = false))
  /\ (forall pindexPrev tx nBits nTimeBlock (view : CoinsView) state txin
             rest coinPrev,
        IsCoinStake tx = true ->
        vin tx = txin :: rest ->
        view (prevout txin) = Some coinPrev ->
        CheckProofOfStake pindexPrev tx nBits nTimeBlock view state
        = Some
            (if MaturityCheck_resolve (nHeight pindexPrev)
                  (coin_nHeight coinPrev) (nStakeMinConfirmations Params)
             then
               if negb (VerifyScript (scriptSig txin)
                          (scriptPubKey (out coinPrev)) tx 0%nat
                          (nValue (out coinPrev)))
               then Done (DoS state 100 false)
               else
                 hbind
                   (CheckStakeKernelHash pindexPrev nBits
                      (coin_nTime coinPrev) (nValue (out coinPrev))
                      (prevout txin) nTimeBlock)
                   (fun ok => if negb ok then Done (DoS state 1 false)
                              else Done (true, state))
             else Done (DoS state 100 false)))
  /\ (forall (view : CoinsView) pindexPrev nBits nTime prevout coinPrev,
        view prevout = Some coinPrev ->
        CheckKernel_miss view pindexPrev nBits nTime prevout
        = if MaturityCheck_resolve (nHeight pindexPrev)
               (coin_nHeight coinPrev) (nStakeMinConfirmations Params)
          then
            match GetAncestor pindexPrev (coin_nHeight coinPrev) with
            | None => Done false
            | Some blockFrom =>
                if IsSpent coinPrev then Done false
                else CheckStakeKernelHash pindexPrev nBits
                       (block_nTime blockFrom) (nValue (out coinPrev))
                       prevout nTime
            end
          else Done false)
  /\ (forall (cache : gmap COutPoint CStakeCache) prevout pindexPrev
             (view : CoinsView) coinPrev,
        cache !! prevout = None ->
        view prevout = Some coinPrev ->
        CacheKernel cache prevout pindexPrev view
        = if MaturityCheck_resolve (nHeight pindexPrev)
               (coin_nHeight coinPrev) (nStakeMinConfirmations Params)
          then
            match GetAncestor pindexPrev (coin_nHeight coinPrev) with
            | None => cache
            | Some blockFrom =>
                <[prevout := {| blockFromTime := block_nTime blockFrom;
                                amount := nValue (out coinPrev) |}]> cache
            end
          else cache).
Proof.
  split; [| split; [| split]].
  - intros tip h minconf. unfold MaturityCheck_resolve.
    destruct (Z.geb_spec (tip + 1 - h) minconf);
      repeat split; intros; lia || discriminate || reflexivity.
  - intros pindexPrev tx nBits nTimeBlock view state txin rest coinPrev
      Hcs Hvin Hview.
    unfold CheckProofOfStake.
    rewrite Hcs, Hvin, Hview, MaturityCheck_resolve_ltb.
    now destruct (MaturityCheck_resolve _ _ _).
  - intros view pindexPrev nBits nTime prevout coinPrev Hview.
    unfold CheckKernel_miss.
    rewrite Hview, MaturityCheck_resolve_ltb.
    now destruct (MaturityCheck_resolve _ _ _).
  - intros cache prevout pindexPrev view coinPrev Hfresh Hview.
    unfold CacheKernel.
    rewrite Hfresh, Hview, MaturityCheck_resolve_ltb.
    destruct (MaturityCheck_resolve _ _ _); [| reflexivity].
    destruct (GetAncestor _ _); [| reflexivity].
    now apply map_insert_fresh.
Qed.

End Properties.

(** * Further properties *)

Section FurtherProperties.
Context {env : Collaborators}.

(** ** Serialization *)

Lemma Z_of_byte_of_Z z : Z_of_byte (byte_of_Z z) = z mod 256.
Proof.
  unfold Z_of_byte, byte_of_Z.
  assert (Hr : 0 <= z mod 256 < 256) by (apply Z.mod_pos_bound; lia).
  destruct (Byte.of_N (Z.to_N (z mod 256))) as [b |] eqn:Hb.
  - apply Byte.to_of_N in Hb. rewrite Hb. lia.
  - apply Byte.of_N_None_iff in Hb. lia.
Qed.

Lemma length_le_bytes n x : length (le_bytes n x) = n.
Proof.
  revert x. induction n as [| n IH]; intros x; simpl; [reflexivity |].
  now rewrite IH.
Qed.

Lemma le_value_le_bytes n x : le_value (le_bytes n x) = x mod 256 ^ Z.of_nat n.
Proof.
  revert x. induction n as [| n IH]; intros x.
  - simpl. now rewrite Z.mod_1_r.
  - cbn [le_bytes le_value]. rewrite IH, Z_of_byte_of_Z.
    rewrite Nat2Z.inj_succ, Z.pow_succ_r by lia.
    rewrite (Z.rem_mul_r x 256 (256 ^ Z.of_nat n)) by lia.
    reflexivity.
Qed.

Lemma le_bytes_inj n x y :
  0 <= x < 256 ^ Z.of_nat n -> 0 <= y < 256 ^ Z.of_nat n ->
  le_bytes n x = le_bytes n y -> x = y.
Proof.
  intros Hx Hy Heq. apply (f_equal le_value) in Heq.
  rewrite !le_value_le_bytes in Heq.
  now rewrite !Z.mod_small in Heq by assumption.
Qed.

Lemma singleton_eq {A} (x y : A) : [x] = [y] -> x = y.
Proof. intros Heq. now injection Heq. Qed.

(** Where [CheckStakeKernelHash] gets as far as hashing, whatever the
    verdict. *)
Lemma CheckStakeKernelHash_hashed H pindexPrev nBits nBlockFromTime
    prevOutAmount prevout nTime :
  hashed H (CheckStakeKernelHash pindexPrev nBits nBlockFromTime
              prevOutAmount prevout nTime) = []
  \/ hashed H (CheckStakeKernelHash pindexPrev nBits nBlockFromTime
                prevOutAmount prevout nTime)
     = [le_bytes 32 (nStakeModifier pindexPrev) ++ le_bytes 4 nBlockFromTime
        ++ le_bytes 32 (op_hash prevout) ++ le_bytes 4 (op_n prevout)
        ++ le_bytes 4 nTime].
Proof.
  rewrite CheckStakeKernelHash_cases.
  destruct (_ || _); [left; reflexivity | right].
  cbn [hashed]. now destruct (_ >? _).
Qed.

(** X1: whatever its arguments, [CheckStakeKernelHash] asks for at most
    one digest, and the stream it hashes is 76 bytes long;
    [ComputeStakeModifier] asks for none without a parent and for one, of
    a stream of 64 bytes, with a parent. *)
Theorem hashed_streams_have_fixed_length H pindexPrev nBits nBlockFromTime
    prevOutAmount prevout nTime kernel :
  (hashed H (CheckStakeKernelHash pindexPrev nBits nBlockFromTime
               prevOutAmount prevout nTime) = []
   \/ exists ss,
       hashed H (CheckStakeKernelHash pindexPrev nBits nBlockFromTime
                   prevOutAmount prevout nTime) = [ss]
       /\ length ss = 76%nat)
  /\ hashed H (ComputeStakeModifier None kernel) = []
  /\ exists ss,
       hashed H (ComputeStakeModifier (Some pindexPrev) kernel) = [ss]
       /\ length ss = 64%nat.
Proof.
  split; [| split].
  - destruct (CheckStakeKernelHash_hashed H pindexPrev nBits nBlockFromTime
                prevOutAmount prevout nTime) as [Hnone | Hone];
      [left; exact Hnone | right].
    eexists. split; [exact Hone |].
    now rewrite !length_app, !length_le_bytes.
  - reflexivity.
  - eexists. split; [reflexivity |].
    unfold put_uint256, CHashWriter_new.
    now rewrite !length_app, !length_le_bytes.
Qed.

(** X2: the stream [CheckStakeKernelHash] hashes determines the kernel:
    when two calls whose stake modifier, times and outpoint are in range
    hash the same stream, they agree on the stake modifier, the creation
    time, the outpoint hash, the outpoint index and the candidate time. *)
Theorem kernel_stream_determines_kernel H H' p p' nBits nBits' bt bt' a a'
    o o' t t' :
  0 <= nStakeModifier p < 2 ^ 256 -> 0 <= nStakeModifier p' < 2 ^ 256 ->
  0 <= bt < 2 ^ 32 -> 0 <= bt' < 2 ^ 32 ->
  0 <= op_hash o < 2 ^ 256 -> 0 <= op_hash o' < 2 ^ 256 ->
  0 <= op_n o < 2 ^ 32 -> 0 <= op_n o' < 2 ^ 32 ->
  0 <= t < 2 ^ 32 -> 0 <= t' < 2 ^ 32 ->
  hashed H (CheckStakeKernelHash p nBits bt a o t) <> [] ->
  hashed H (CheckStakeKernelHash p nBits bt a o t)
  = hashed H' (CheckStakeKernelHash p' nBits' bt' a' o' t') ->
  nStakeModifier p = nStakeModifier p' /\ bt = bt'
  /\ op_hash o = op_hash o' /\ op_n o = op_n o' /\ t = t'.
Proof.
  intros Hm Hm' Hbt Hbt' Hh Hh' Hn Hn' Ht Ht' Hsome Heq.
  destruct (CheckStakeKernelHash_hashed H p nBits bt a o t) as [E | E];
    [congruence |].
  destruct (CheckStakeKernelHash_hashed H' p' nBits' bt' a' o' t')
    as [E' | E']; rewrite E, E' in Heq; [discriminate Heq |].
  apply singleton_eq in Heq.
  apply app_inj_1 in Heq as [H1 Heq]; [| now rewrite !length_le_bytes].
  apply app_inj_1 in Heq as [H2 Heq]; [| now rewrite !length_le_bytes].
  apply app_inj_1 in Heq as [H3 Heq]; [| now rewrite !length_le_bytes].
  apply app_inj_1 in Heq as [H4 H5]; [| now rewrite !length_le_bytes].
  repeat split;
    match goal with
    | E : le_bytes ?n _ = le_bytes ?n _ |- _ =>
        apply (le_bytes_inj n) in E; [exact E | | ];
        change (256 ^ Z.of_nat n) with (2 ^ (8 * Z.of_nat n));
        cbn; assumption
    end.
Qed.

(** X16: the stream [ComputeStakeModifier] hashes determines its
    inputs: when two calls with a parent, on kernel hashes and parent
    stake modifiers in range, hash the same stream, they have the same
    kernel hash and the same parent stake modifier. *)
Theorem modifier_stream_determines_inputs H H' p p' kernel kernel' :
  0 <= kernel < 2 ^ 256 -> 0 <= kernel' < 2 ^ 256 ->
  0 <= nStakeModifier p < 2 ^ 256 -> 0 <= nStakeModifier p' < 2 ^ 256 ->
  hashed H (ComputeStakeModifier (Some p) kernel)
  = hashed H' (ComputeStakeModifier (Some p') kernel') ->
  kernel = kernel' /\ nStakeModifier p = nStakeModifier p'.
Proof.
  intros Hk Hk' Hm Hm' Heq.
  unfold ComputeStakeModifier, put_uint256, CHashWriter_new in Heq.
  cbn [hashed app] in Heq. apply singleton_eq in Heq.
  apply app_inj_1 in Heq as [H1 H2]; [| now rewrite !length_le_bytes].
  split; [apply (le_bytes_inj 32 _ _ Hk Hk' H1)
         | apply (le_bytes_inj 32 _ _ Hm Hm' H2)].
Qed.

(** ** The weighted target *)

(** X3: where the weighted target does not wrap, a larger stake never
    loses a kernel: if the check accepts with a positive amount, it
    accepts with every larger amount whose product with the decoded
    target stays below 2^256, all else equal. *)
Theorem larger_stake_keeps_kernel H pindexPrev nBits nBlockFromTime
    a a' prevout nTime :
  0 <= fst (fst (SetCompact nBits)) ->
  0 < GetSatoshis a <= GetSatoshis a' ->
  GetSatoshis a' < 2 ^ 64 ->
  fst (fst (SetCompact nBits)) * GetSatoshis a' < 2 ^ 256 ->
  eval H (CheckStakeKernelHash pindexPrev nBits nBlockFromTime a prevout
            nTime) = true ->
  eval H (CheckStakeKernelHash pindexPrev nBits nBlockFromTime a' prevout
            nTime) = true.
Proof.
  intros Htarget Ha Ha' Hprod.
  rewrite !CheckStakeKernelHash_cases.
  destruct (Z.eqb_spec (GetSatoshis a) 0) as [| _]; [lia |].
  destruct (Z.eqb_spec (GetSatoshis a') 0) as [| _]; [lia |].
  rewrite !orb_false_r.
  destruct (_ || _); [intros Hf; exact Hf |].
  cbn [eval]. unfold arith_mul, arith_uint256_of, two256, two64.
  rewrite !(Z.mod_small (GetSatoshis _)) by lia.
  rewrite !Z.mod_small by nia.
  destruct (Z.gtb_spec (H (le_bytes 32 (nStakeModifier pindexPrev)
                           ++ le_bytes 4 nBlockFromTime
                           ++ le_bytes 32 (op_hash prevout)
                           ++ le_bytes 4 (op_n prevout) ++ le_bytes 4 nTime))
              (fst (fst (SetCompact nBits)) * GetSatoshis a));
    [intros Hf; discriminate Hf | intros _].
  destruct (Z.gtb_spec (H (le_bytes 32 (nStakeModifier pindexPrev)
                           ++ le_bytes 4 nBlockFromTime
                           ++ le_bytes 32 (op_hash prevout)
                           ++ le_bytes 4 (op_n prevout) ++ le_bytes 4 nTime))
              (fst (fst (SetCompact nBits)) * GetSatoshis a'));
    [nia | reflexivity].
Qed.

(** ** Filling the cache *)

Lemma CacheKernel_entry (cache : gmap COutPoint CStakeCache) prevout
    pindexPrev (view : CoinsView) :
  CacheKernel cache prevout pindexPrev view
  = match cache !! prevout with
    | Some _ => cache
    | None =>
        match kernel_entry prevout pindexPrev view with
        | Some c => <[prevout := c]> cache
        | None => cache
        end
    end.
Proof.
  unfold CacheKernel, kernel_entry.
  destruct (cache !! prevout) eqn:Hfresh; [reflexivity |].
  destruct (view prevout) as [coinPrev |]; [| reflexivity].
  destruct (_ <? _); [reflexivity |].
  destruct (GetAncestor _ _); [| reflexivity].
  now apply map_insert_fresh.
Qed.

Lemma CacheKernel_lookup (cache : gmap COutPoint CStakeCache) prevout
    pindexPrev (view : CoinsView) k :
  CacheKernel cache prevout pindexPrev view !! k
  = match cache !! k with
    | Some c => Some c
    | None => if decide (k = prevout)
              then kernel_entry prevout pindexPrev view else None
    end.
Proof.
  rewrite CacheKernel_entry.
  destruct (decide (k = prevout)) as [-> | Hne].
  - destruct (cache !! prevout) eqn:Hfresh; [now rewrite Hfresh |].
    destruct (kernel_entry prevout pindexPrev view);
      [now rewrite lookup_insert_eq | now rewrite Hfresh].
  - destruct (cache !! prevout); [now destruct (cache !! k) |].
    destruct (kernel_entry prevout pindexPrev view);
      [rewrite lookup_insert_ne by congruence |];
      now destruct (cache !! k).
Qed.

(** X4: [CacheKernel] touches no entry but that of its outpoint; calling
    it twice with the same arguments is calling it once; and once the
    outpoint is cached, a later call for it, with whatever block and
    view, changes nothing. *)
Theorem CacheKernel_frame_and_repeat (cache : gmap COutPoint CStakeCache)
    prevout pindexPrev (view : CoinsView) :
  (forall k, k <> prevout ->
             CacheKernel cache prevout pindexPrev view !! k = cache !! k)
  /\ CacheKernel (CacheKernel cache prevout pindexPrev view) prevout
       pindexPrev view
     = CacheKernel cache prevout pindexPrev view
  /\ (is_Some (CacheKernel cache prevout pindexPrev view !! prevout) ->
      forall pindexPrev' (view' : CoinsView),
        CacheKernel (CacheKernel cache prevout pindexPrev view) prevout
          pindexPrev' view'
        = CacheKernel cache prevout pindexPrev view).
Proof.
  split; [| split].
  - intros k Hne. rewrite CacheKernel_lookup.
    destruct (cache !! k); [reflexivity |].
    now destruct (decide (k = prevout)).
  - rewrite (CacheKernel_entry (CacheKernel _ _ _ _)).
    rewrite CacheKernel_lookup, decide_True by reflexivity.
    destruct (cache !! prevout) eqn:Hfresh; [reflexivity |].
    destruct (kernel_entry prevout pindexPrev view) eqn:Hentry;
      [reflexivity |].
    rewrite CacheKernel_entry, Hfresh, Hentry. reflexivity.
  - intros [c Hc] pindexPrev' view'.
    rewrite (CacheKernel_entry (CacheKernel _ _ _ _)). now rewrite Hc.
Qed.

(** X5: filling the cache for two different outpoints gives the same
    cache in either order, whatever block and view each call is given. *)
Theorem CacheKernel_commutes (cache : gmap COutPoint CStakeCache) p1 p2
    t1 t2 (v1 v2 : CoinsView) :
  p1 <> p2 ->
  CacheKernel (CacheKernel cache p1 t1 v1) p2 t2 v2
  = CacheKernel (CacheKernel cache p2 t2 v2) p1 t1 v1.
Proof.
  intros Hne. apply map_eq. intros k.
  rewrite !CacheKernel_lookup.
  destruct (cache !! k); [reflexivity |].
  destruct (decide (k = p1)) as [E1 | H1], (decide (k = p2)) as [E2 | H2];
    try congruence; try reflexivity.
  - now destruct (kernel_entry p1 t1 v1).
  - now destruct (kernel_entry p2 t2 v2).
Qed.

Lemma kernel_entry_Some prevout pindexPrev (view : CoinsView) stake :
  kernel_entry prevout pindexPrev view = Some stake ->
  exists coinPrev blockFrom,
    view prevout = Some coinPrev
    /\ nStakeMinConfirmations Params
       <= nHeight pindexPrev + 1 - coin_nHeight coinPrev
    /\ GetAncestor pindexPrev (coin_nHeight coinPrev) = Some blockFrom
    /\ stake = mkStakeCache (nTime blockFrom) (nValue (out coinPrev)).
Proof.
  unfold kernel_entry.
  destruct (view prevout) as [coinPrev |]; [| discriminate].
  destruct (Z.ltb_spec (nHeight pindexPrev + 1 - coin_nHeight coinPrev)
              (nStakeMinConfirmations Params)); [discriminate |].
  destruct (GetAncestor _ _) as [blockFrom |] eqn:Hanc; [| discriminate].
  intros [= <-]. now exists coinPrev, blockFrom.
Qed.

Lemma fold_CacheKernel_lookup pindexPrev (view : CoinsView) ps :
  forall (cache : gmap COutPoint CStakeCache) k,
    fold_left (fun c p => CacheKernel c p pindexPrev view) ps cache !! k
    = match cache !! k with
      | Some c => Some c
      | None => if decide (k ∈ ps)
                then kernel_entry k pindexPrev view else None
      end.
Proof.
  induction ps as [| p ps IH]; intros cache k; cbn [fold_left].
  - destruct (cache !! k); [reflexivity |].
    rewrite decide_False; [reflexivity | apply not_elem_of_nil].
  - rewrite IH, CacheKernel_lookup.
    destruct (cache !! k); [reflexivity |].
    destruct (decide (k = p)) as [-> | Hne].
    + rewrite (decide_True (P := p ∈ p :: ps))
        by (apply elem_of_cons; now left).
      destruct (kernel_entry p pindexPrev view); [reflexivity |].
      now destruct (decide (p ∈ ps)).
    + destruct (decide (k ∈ ps)) as [Hin | Hnin].
      * rewrite decide_True; [reflexivity | apply elem_of_cons; now right].
      * rewrite decide_False; [reflexivity |].
        intros Hin. apply elem_of_cons in Hin as [? | ?]; contradiction.
Qed.

(** X6: a cache filled from empty by calls of [CacheKernel] for any list
    of outpoints, all with the same block and view, is sound for that
    block and view: each entry is the creation-block time and amount of
    a coin that is in the view and has the required confirmations. *)
Theorem scan_cache_sound pindexPrev (view : CoinsView) ps :
  cache_sound view pindexPrev
    (fold_left (fun c p => CacheKernel c p pindexPrev view) ps ∅).
Proof.
  intros k stake Hk.
  rewrite fold_CacheKernel_lookup, lookup_empty in Hk.
  destruct (decide (k ∈ ps)); [| discriminate Hk].
  now apply kernel_entry_Some.
Qed.

(** ** The cached check after a scan *)

Lemma CheckKernel_cached_eval H pindexPrev nBits nTime prevout pBlockTime
    (cache : gmap COutPoint CStakeCache) :
  eval H (CheckKernel_cached pindexPrev nBits nTime prevout pBlockTime cache)
  = match cache !! prevout with
    | None => (false, pBlockTime)
    | Some stake =>
        (eval H (CheckStakeKernelHash pindexPrev nBits (blockFromTime stake)
                   (amount stake) prevout nTime),
         match pBlockTime with
         | Some _ => Some (blockFromTime stake)
         | None => None
         end)
    end.
Proof.
  unfold CheckKernel_cached.
  destruct (cache !! prevout) as [stake |]; [| reflexivity].
  now rewrite eval_hbind.
Qed.

(** X7: after the cache has been filled, from empty, by calls of
    [CacheKernel] for a list of outpoints with one block and view, the
    cached [CheckKernel] gives for each of those outpoints: when its coin
    is in the view with the required confirmations and a creation block,
    the verdict of the kernel hash check on that block's time and the
    coin's amount, a non-null [pBlockTime] receiving that time; and
    false, with [pBlockTime] untouched and nothing hashed, when the coin
    is missing, immature or without creation block. *)
Theorem scan_cache_verdict H pindexPrev (view : CoinsView) ps nBits nTime
    prevout pBlockTime :
  prevout ∈ ps ->
  let cache := fold_left (fun c p => CacheKernel c p pindexPrev view) ps ∅ in
  (forall coinPrev blockFrom,
      view prevout = Some coinPrev ->
      nStakeMinConfirmations Params
      <= nHeight pindexPrev + 1 - coin_nHeight coinPrev ->
      GetAncestor pindexPrev (coin_nHeight coinPrev) = Some blockFrom ->
      eval H (CheckKernel_cached pindexPrev nBits nTime prevout pBlockTime
                cache)
      = (eval H (CheckStakeKernelHash pindexPrev nBits
                   (block_nTime blockFrom) (nValue (out coinPrev)) prevout
                   nTime),
         match pBlockTime with
         | Some _ => Some (block_nTime blockFrom)
         | None => None
         end))
  /\ (view prevout = None
      \/ (exists coinPrev,
            view prevout = Some coinPrev
            /\ (nHeight pindexPrev + 1 - coin_nHeight coinPrev
                < nStakeMinConfirmations Params
                \/ GetAncestor pindexPrev (coin_nHeight coinPrev) = None)) ->
      CheckKernel_cached pindexPrev nBits nTime prevout pBlockTime cache
      = Done (false, pBlockTime)).
Proof.
  intros Hin cache.
  assert (Hlookup : cache !! prevout = kernel_entry prevout pindexPrev view).
  { subst cache. rewrite fold_CacheKernel_lookup, lookup_empty.
    now rewrite decide_True. }
  split.
  - intros coinPrev blockFrom Hview Hmat Hanc.
    rewrite CheckKernel_cached_eval, Hlookup.
    unfold kernel_entry. rewrite Hview, Hanc.
    apply Z.ltb_ge in Hmat. now rewrite Hmat.
  - intros Hfails. apply CheckKernel_cached_miss.
    rewrite Hlookup. unfold kernel_entry.
    destruct Hfails as [-> | (coinPrev & -> & [Himm | Hanc])];
      [reflexivity | |].
    + apply Z.ltb_lt in Himm. now rewrite Himm.
    + rewrite Hanc. now destruct (_ <? _).
Qed.

(** X8: [CacheKernel] does not ask whether the coin is spent: a coin for
    which [IsSpent] holds, in the view with the required confirmations
    and a creation block, is cached, and the cached [CheckKernel] then
    returns the verdict of the kernel hash check on the cached time and
    amount. *)
Theorem spent_coin_is_cached H pindexPrev (view : CoinsView)
    (cache : gmap COutPoint CStakeCache) nBits nTime prevout pBlockTime
    coinPrev blockFrom :
  cache !! prevout = None ->
  view prevout = Some coinPrev ->
  IsSpent coinPrev = true ->
  nStakeMinConfirmations Params
  <= nHeight pindexPrev + 1 - coin_nHeight coinPrev ->
  GetAncestor pindexPrev (coin_nHeight coinPrev) = Some blockFrom ->
  CacheKernel cache prevout pindexPrev view !! prevout
  = Some (mkStakeCache (block_nTime blockFrom) (nValue (out coinPrev)))
  /\ fst (eval H (CheckKernel_cached pindexPrev nBits nTime prevout
                    pBlockTime
                    (CacheKernel cache prevout pindexPrev view)))
     = eval H (CheckStakeKernelHash pindexPrev nBits (block_nTime blockFrom)
                 (nValue (out coinPrev)) prevout nTime).
Proof.
  intros Hfresh Hview Hspent Hmat Hanc.
  assert (Hcached : CacheKernel cache prevout pindexPrev view !! prevout
                    = Some (mkStakeCache (block_nTime blockFrom)
                              (nValue (out coinPrev)))).
  { rewrite CacheKernel_lookup, Hfresh, decide_True by reflexivity.
    unfold kernel_entry. rewrite Hview, Hanc.
    apply Z.ltb_ge in Hmat. now rewrite Hmat. }
  split; [exact Hcached |].
  rewrite CheckKernel_cached_eval, Hcached. reflexivity.
Qed.

(** ** The coinstake check against the cached kernel check *)

(** X9: for a coinstake whose script verifies and whose coin carries the
    time of its creation block, [CheckProofOfStake] on a view accepts
    exactly when the cached [CheckKernel] accepts its first input's
    outpoint on a cache that [CacheKernel] calls have filled, from
    empty, for a list of outpoints holding that outpoint, with the same
    parent block, view, target and time. *)
Theorem CheckProofOfStake_agrees_with_cached_CheckKernel H pindexPrev tx
    nBits nTimeBlock (view : CoinsView) state txin rest coinPrev blockFrom
    ps pBlockTime :
  IsCoinStake tx = true ->
  vin tx = txin :: rest ->
  view (prevout txin) = Some coinPrev ->
  VerifyScript (scriptSig txin) (scriptPubKey (out coinPrev)) tx 0%nat
    (nValue (out coinPrev)) = true ->
  GetAncestor pindexPrev (coin_nHeight coinPrev) = Some blockFrom ->
  nTime blockFrom = coin_nTime coinPrev ->
  prevout txin ∈ ps ->
  exists m,
    CheckProofOfStake pindexPrev tx nBits nTimeBlock view state = Some m
    /\ fst (eval H m)
       = fst (eval H
                (CheckKernel_cached pindexPrev nBits nTimeBlock
                   (prevout txin) pBlockTime
                   (fold_left (fun c p => CacheKernel c p pindexPrev view)
                      ps ∅))).
Proof.
  intros Hcs Hvin Hview Hscript Hanc Htime Hin.
  rewrite CheckKernel_cached_eval, fold_CacheKernel_lookup, lookup_empty.
  rewrite decide_True by exact Hin.
  unfold CheckProofOfStake, kernel_entry.
  rewrite Hcs, Hvin, Hview, Hscript, Hanc, Htime. cbn [negb].
  eexists. split; [reflexivity |].
  destruct (_ <? _); [cbn [eval]; now rewrite DoS_fst |].
  rewrite eval_hbind. cbn [blockFromTime amount fst].
  destruct (eval H (CheckStakeKernelHash _ _ _ _ _ _)); cbn [negb eval];
    [reflexivity | now rewrite DoS_fst].
Qed.

Lemma CheckStakeKernelHash_hashed_checks H pindexPrev nBits nBlockFromTime
    prevOutAmount prevout nTime :
  hashed H (CheckStakeKernelHash pindexPrev nBits nBlockFromTime
              prevOutAmount prevout nTime) <> [] ->
  nBlockFromTime <= nTime /\ GetSatoshis prevOutAmount <> 0.
Proof.
  rewrite CheckStakeKernelHash_cases.
  destruct (Z.ltb_spec nTime nBlockFromTime); [now intros [] |].
  destruct (Z.eqb_spec (GetSatoshis prevOutAmount) 0);
    [rewrite orb_true_r; now intros [] |].
  intros _. split; assumption.
Qed.

(** X10: [CheckProofOfStake] asks for at most one digest, and only for a
    coinstake whose coin is in the view, has the required confirmations
    and a verifying script, is not younger than the block time and has a
    nonzero amount; every cheaper rejection is returned without
    hashing. *)
Theorem CheckProofOfStake_hashes_last H pindexPrev tx nBits nTimeBlock
    (view : CoinsView) state txin rest :
  (IsCoinStake tx = true -> vin tx = txin :: rest) ->
  exists m,
    CheckProofOfStake pindexPrev tx nBits nTimeBlock view state = Some m
    /\ (length (hashed H m) <= 1)%nat
    /\ (hashed H m <> [] ->
        IsCoinStake tx = true
        /\ exists coinPrev,
            view (prevout txin) = Some coinPrev
            /\ nStakeMinConfirmations Params
               <= nHeight pindexPrev + 1 - coin_nHeight coinPrev
            /\ VerifyScript (scriptSig txin) (scriptPubKey (out coinPrev))
                 tx 0%nat (nValue (out coinPrev)) = true
            /\ coin_nTime coinPrev <= nTimeBlock
            /\ GetSatoshis (nValue (out coinPrev)) <> 0).
Proof.
  intros Hvin. unfold CheckProofOfStake.
  destruct (IsCoinStake tx) eqn:Hcs; cbn [negb].
  2:{ eexists. split; [reflexivity |]. cbn. split; [lia | now intros []]. }
  rewrite (Hvin eq_refl). eexists. split; [reflexivity |].
  destruct (view (prevout txin)) as [coinPrev |] eqn:Hview.
  2:{ cbn. split; [lia | now intros []]. }
  destruct (Z.ltb_spec (nHeight pindexPrev + 1 - coin_nHeight coinPrev)
              (nStakeMinConfirmations Params)) as [| Hmat].
  { cbn. split; [lia | now intros []]. }
  destruct (VerifyScript _ _ _ _ _) eqn:Hscript; cbn [negb].
  2:{ cbn. split; [lia | now intros []]. }
  rewrite hashed_hbind.
  replace (hashed H (if negb _ then _ else _)) with (@nil (list byte))
    by (now destruct (eval H _)).
  rewrite app_nil_r. split.
  - destruct (CheckStakeKernelHash_hashed H pindexPrev nBits
                (coin_nTime coinPrev) (nValue (out coinPrev)) (prevout txin)
                nTimeBlock) as [-> | ->]; cbn; lia.
  - intros Hhashed.
    apply CheckStakeKernelHash_hashed_checks in Hhashed as [Htime Hamount].
    split; [reflexivity |]. exists coinPrev. repeat split; assumption.
Qed.

(** ** What the membership check returns *)

Lemma IsConfirmedInNPrevBlocks_loop_sound txindex pindexFrom nMaxDepth
    nActualDepth pindex :
  forall r,
    IsConfirmedInNPrevBlocks_loop txindex pindexFrom nMaxDepth nActualDepth
      pindex = r ->
    if fst r
    then exists (n : nat) b,
           ancestors pindex !! n = Some b
           /\ at_position txindex b
           /\ snd r = nHeight pindexFrom - nHeight b
           /\ snd r < nMaxDepth
           /\ forall (i : nat) b',
                (i < n)%nat -> ancestors pindex !! i = Some b' ->
                ~ at_position txindex b'
    else snd r = nActualDepth.
Proof.
  induction pindex as [pindex IH] using CBlockIndex_pprev_ind.
  intros r <-. rewrite IsConfirmedInNPrevBlocks_loop_eq, ancestors_eq.
  destruct (Z.ltb_spec (nHeight pindexFrom - nHeight pindex) nMaxDepth)
    as [Hin |]; [| reflexivity].
  destruct ((nDataPos pindex =? txPos txindex)
            && (nFile pindex =? txFile txindex)) eqn:Hat.
  - apply at_position_eqb in Hat. cbn [fst snd].
    exists 0%nat, pindex. repeat split; try assumption; try reflexivity.
    + apply Hat.
    + apply Hat.
    + intros i b' Hi. lia.
  - destruct (pprev pindex) as [pindex' |] eqn:Hprev; [| reflexivity].
    specialize (IH pindex' eq_refl _ eq_refl).
    destruct (fst (IsConfirmedInNPrevBlocks_loop txindex pindexFrom
                     nMaxDepth nActualDepth pindex')); [| exact IH].
    destruct IH as (n & b & Hb & Hpos & Hd & Hlt & Hfirst).
    exists (S n), b. repeat split; try assumption; try apply Hpos.
    intros [| i] b' Hi Hb'.
    + injection Hb' as <-. rewrite <- at_position_eqb, Hat. discriminate.
    + apply (Hfirst i b'); [lia | exact Hb'].
Qed.

(** X11: when [IsConfirmedInNPrevBlocks] reports a match, the depth it
    returns is below [nMaxDepth] and is the height difference to a block
    on the [pprev] walk from the starting block whose file and data
    position match, no block before it on the walk matching; when it
    reports none, the depth is left as it was; with a null starting block
    or [nMaxDepth <= 0] it reports none. *)
Theorem IsConfirmedInNPrevBlocks_sound txindex pindexFrom nMaxDepth
    nActualDepth :
  (forall d,
      IsConfirmedInNPrevBlocks txindex pindexFrom nMaxDepth nActualDepth
      = (true, d) ->
      d < nMaxDepth
      /\ exists from (n : nat) b,
          pindexFrom = Some from
          /\ ancestors from !! n = Some b
          /\ at_position txindex b
          /\ d = nHeight from - nHeight b
          /\ forall (i : nat) b',
               (i < n)%nat -> ancestors from !! i = Some b' ->
               ~ at_position txindex b')
  /\ (forall d,
        IsConfirmedInNPrevBlocks txindex pindexFrom nMaxDepth nActualDepth
        = (false, d) ->
        d = nActualDepth)
  /\ (pindexFrom = None \/ nMaxDepth <= 0 ->
      IsConfirmedInNPrevBlocks txindex pindexFrom nMaxDepth nActualDepth
      = (false, nActualDepth)).
Proof.
  destruct pindexFrom as [from |]; cbn [IsConfirmedInNPrevBlocks].
  2:{ split; [discriminate | split; [now intros d [= <-] | reflexivity]]. }
  split; [| split].
  - intros d Hr.
    apply IsConfirmedInNPrevBlocks_loop_sound in Hr. cbn [fst snd] in Hr.
    destruct Hr as (n & b & Hb & Hpos & Hd & Hlt & Hfirst).
    split; [exact Hlt |]. now exists from, n, b.
  - intros d Hr.
    apply IsConfirmedInNPrevBlocks_loop_sound in Hr. exact Hr.
  - intros [Hnull | Hempty]; [discriminate Hnull |].
    rewrite IsConfirmedInNPrevBlocks_loop_eq, Z.sub_diag.
    destruct (Z.ltb_spec 0 nMaxDepth); [lia | reflexivity].
Qed.

Lemma IsConfirmedInNPrevBlocks_loop_wider txindex pindexFrom nMaxDepth
    nMaxDepth' nActualDepth nActualDepth' pindex d :
  nMaxDepth <= nMaxDepth' ->
  IsConfirmedInNPrevBlocks_loop txindex pindexFrom nMaxDepth nActualDepth
    pindex = (true, d) ->
  IsConfirmedInNPrevBlocks_loop txindex pindexFrom nMaxDepth' nActualDepth'
    pindex = (true, d).
Proof.
  intros Hle.
  induction pindex as [pindex IH] using CBlockIndex_pprev_ind.
  rewrite !IsConfirmedInNPrevBlocks_loop_eq.
  destruct (Z.ltb_spec (nHeight pindexFrom - nHeight pindex) nMaxDepth);
    [| discriminate].
  destruct (Z.ltb_spec (nHeight pindexFrom - nHeight pindex) nMaxDepth');
    [| lia].
  destruct (_ && _); [intros Hr; exact Hr |].
  destruct (pprev pindex) as [pindex' |]; [| discriminate].
  now apply IH.
Qed.

(** X12: widening the window keeps a match: what
    [IsConfirmedInNPrevBlocks] finds within [nMaxDepth] it finds, at the
    same depth, within every larger [nMaxDepth]. *)
Theorem IsConfirmedInNPrevBlocks_wider_window txindex pindexFrom nMaxDepth
    nMaxDepth' nActualDepth nActualDepth' d :
  nMaxDepth <= nMaxDepth' ->
  IsConfirmedInNPrevBlocks txindex pindexFrom nMaxDepth nActualDepth
  = (true, d) ->
  IsConfirmedInNPrevBlocks txindex pindexFrom nMaxDepth' nActualDepth'
  = (true, d).
Proof.
  intros Hle. destruct pindexFrom as [from |]; [| discriminate].
  now apply IsConfirmedInNPrevBlocks_loop_wider.
Qed.

(** ** Timestamps *)

(** X13: the coinstake timestamp check is the header-only check of the
    block time together with the equality of the two times; so a
    coinstake time that passes implies a block time that passes
    [CheckStakeBlockTimestamp]. *)
Theorem CheckCoinStakeTimestamp_factors nTimeBlock nTimeTx :
  CheckCoinStakeTimestamp nTimeBlock nTimeTx
  = (nTimeBlock =? nTimeTx) && CheckStakeBlockTimestamp nTimeBlock.
Proof.
  unfold CheckStakeBlockTimestamp, CheckCoinStakeTimestamp.
  destruct (Z.eqb_spec nTimeBlock nTimeTx) as [<- | Hne].
  - now rewrite Z.eqb_refl.
  - now destruct (IsProtocolV2 Params nTimeBlock).
Qed.

(** X14: when the timestamp mask is [2^k - 1], the second protocol
    accepts exactly the equal times that are multiples of [2^k]. *)
Theorem granular_timestamps_are_multiples k nTimeBlock nTimeTx :
  0 <= k ->
  nStakeTimestampMask Params = 2 ^ k - 1 ->
  IsProtocolV2 Params nTimeBlock = true ->
  (CheckCoinStakeTimestamp nTimeBlock nTimeTx = true
   <-> nTimeBlock = nTimeTx /\ nTimeTx mod 2 ^ k = 0).
Proof.
  intros Hk Hmask Hv2. unfold CheckCoinStakeTimestamp.
  rewrite Hv2, Hmask.
  replace (2 ^ k - 1) with (Z.ones k) by (rewrite Z.ones_equiv; lia).
  rewrite Z.land_ones by exact Hk.
  now rewrite andb_true_iff, !Z.eqb_eq.
Qed.

(** ** The cached check and the chain *)

(** X15: the cached [CheckKernel] reads nothing of the block it is given
    but its stake modifier: two blocks with the same stake modifier, of
    whatever heights and ancestors, give the same computation on every
    cache, so a cached coin is not checked again for confirmations. *)
Theorem CheckKernel_cached_reads_modifier_only p q nBits nTime prevout
    pBlockTime (cache : gmap COutPoint CStakeCache) :
  nStakeModifier p = nStakeModifier q ->
  CheckKernel_cached p nBits nTime prevout pBlockTime cache
  = CheckKernel_cached q nBits nTime prevout pBlockTime cache.
Proof.
  intros Hmod. unfold CheckKernel_cached.
  destruct (cache !! prevout) as [stake |]; [| reflexivity].
  now rewrite !CheckStakeKernelHash_cases, Hmod.
Qed.

End FurtherProperties.

(** * The properties on the sample chain *)

Section OnSampleChain.
Import Reference Sample.
Local Abbreviation H := Hash256.

(** C1: with the sample view, the cache that [CacheKernel] fills for the
    sample coin makes the cached [CheckKernel] accept the kernel at time
    1500000032, and so does the cache-miss branch when it is given the
    sample view; [CheckKernel] without a cache rejects it. *)
Theorem CheckKernel_cache_changes_verdict :
  let cache := CacheKernel (env := env) ∅ outpoint tip view in
  cache !! outpoint
  = Some {| blockFromTime := 1400000032; amount := mkAmount 100000 |}
  /\ eval H (CheckKernel_cached (env := env) tip nBits 1500000032 outpoint
               None cache) = (true, None)
  /\ eval H (CheckKernel_miss (env := env) view tip nBits 1500000032
               outpoint) = true
  /\ eval H (CheckKernel (env := env) tip nBits 1500000032 outpoint None)
     = (false, None).
Proof.
  cbv zeta. split; [| split; [| split]]; vm_compute; reflexivity.
Qed.

(** C2 on the sample chain, with an empty cache. *)
Lemma CheckKernel_miss_rejects_witness :
  (forall o, CCoinsViewCache CCoinsView o = None)
  /\ CheckKernel_cached (env := env) tip nBits 1500000032 outpoint None ∅
     = Done (false, None)
  /\ forall pindexPrev' nBits' nTime' prevout' pBlockTime',
       CheckKernel (env := env) pindexPrev' nBits' nTime' prevout'
         pBlockTime'
       = Done (false, pBlockTime').
Proof.
  apply (@CheckKernel_miss_rejects env tip nBits 1500000032 outpoint None ∅).
  reflexivity.
Defined.

(** The kernel rule with the product of integers fails on the code:
    the timestamp, decode and amount checks pass on the sample kernel
    with a stake of 100 coins, the product of the target and the amount
    is above every digest, and the check still rejects at time
    1500000000. *)
Lemma kernel_rule_integer_product_fails :
  ~ kernel_rule_integer_product (env := env) H tip nBits 1400000032
      (mkAmount 10000000000) outpoint 1500000000.
Proof.
  unfold kernel_rule_integer_product. intros Hrule.
  assert (Haccepts :
    eval H (CheckStakeKernelHash (env := env) tip nBits 1400000032
              (mkAmount 10000000000) outpoint 1500000000) = true).
  { apply Hrule; vm_compute; (reflexivity || discriminate). }
  vm_compute in Haccepts. discriminate Haccepts.
Qed.

(** The wrapped comparison on the sample kernel with the sample coin. *)
Lemma CheckStakeKernelHash_accepts_iff_witness :
  let bnTarget := fst (fst (SetCompact (Collaborators := env) nBits)) in
  let nValueIn := 100000 in
  let ss := le_bytes 32 (nStakeModifier tip) ++ le_bytes 4 1400000032
            ++ le_bytes 32 (op_hash outpoint) ++ le_bytes 4 (op_n outpoint)
            ++ le_bytes 4 1500000032 in
  let m := CheckStakeKernelHash (env := env) tip nBits 1400000032
             (mkAmount 100000) outpoint 1500000032 in
  hashed H m = [ss]
  /\ (eval H m = true
      <-> H ss <= (bnTarget * (nValueIn mod 2 ^ 64)) mod 2 ^ 256)
  /\ (0 <= bnTarget -> 0 < nValueIn < 2 ^ 64 ->
      bnTarget * nValueIn < 2 ^ 256 ->
      (eval H m = true <-> H ss <= bnTarget * nValueIn)).
Proof.
  apply (@CheckStakeKernelHash_accepts_iff env tip nBits 1400000032
           (mkAmount 100000) outpoint 1500000032 H);
    vm_compute; (reflexivity || discriminate).
Defined.

(** C5 on the sample kernel, at a time before the coin's creation. *)
Lemma CheckStakeKernelHash_rejects_early_witness :
  CheckStakeKernelHash (env := env) tip nBits 1400000032 (mkAmount 100000)
    outpoint 1400000000 = Done false
  /\ forall H',
       eval H' (CheckStakeKernelHash (env := env) tip nBits 1400000032
                  (mkAmount 100000) outpoint 1400000000) = false
       /\ hashed H' (CheckStakeKernelHash (env := env) tip nBits 1400000032
                       (mkAmount 100000) outpoint 1400000000) = [].
Proof.
  apply (@CheckStakeKernelHash_rejects_early env tip nBits 1400000032
           (mkAmount 100000) outpoint 1400000000).
  left. reflexivity.
Defined.

(** The sample chain follows [pprev]. *)
Lemma linked_block h : linked (block h).
Proof.
  induction h as [| h IH]; [exact I |].
  split; [| exact IH].
  change (nHeight (block h) = Z.of_nat (S h) - 1).
  replace (nHeight (block h)) with (Z.of_nat h) by (now destruct h).
  lia.
Defined.

(** C9 without a bound on [nMaxDepth] fails: with an empty window the
    starting block's own position is not found. *)
Lemma own_position_not_found_in_empty_window :
  ~ own_position_found_at_depth_0 (mkDiskTxPos 0 6008 0) tip 0 (-1).
Proof.
  unfold own_position_found_at_depth_0. intros Hfound.
  assert (Hat : at_position (mkDiskTxPos 0 6008 0) tip)
    by (split; reflexivity).
  specialize (Hfound Hat). vm_compute in Hfound. discriminate Hfound.
Qed.

(** C9 as amended, on the sample chain: the tip's own position at depth
    0, the position of block 3 at depth 3 in a window of four blocks and
    not in a window of three. *)
Lemma IsConfirmedInNPrevBlocks_spec_witness :
  let txindex := mkDiskTxPos 0 3008 0 in
  linked tip
  /\ IsConfirmedInNPrevBlocks (mkDiskTxPos 0 6008 0) (Some tip) 1 (-1)
     = (true, 0)
  /\ IsConfirmedInNPrevBlocks txindex (Some tip) 4 (-1) = (true, 3)
  /\ IsConfirmedInNPrevBlocks txindex (Some tip) 3 (-1) = (false, -1).
Proof.
  cbv zeta.
  destruct (IsConfirmedInNPrevBlocks_spec (mkDiskTxPos 0 6008 0) tip 1 (-1)
              (linked_block 6)) as [Hown _].
  destruct (IsConfirmedInNPrevBlocks_spec (mkDiskTxPos 0 3008 0) tip 4 (-1)
              (linked_block 6)) as [_ [Hfound _]].
  destruct (IsConfirmedInNPrevBlocks_spec (mkDiskTxPos 0 3008 0) tip 3 (-1)
              (linked_block 6)) as [_ [_ Hnone]].
  split; [exact (linked_block 6) | split; [| split]].
  - apply Hown; [lia | split; reflexivity].
  - apply (Hfound 3%nat (block 3)).
    + reflexivity.
    + lia.
    + split; reflexivity.
    + intros i b' Hi Hb'.
      destruct i as [| [| [| i]]]; [| | | lia];
        injection Hb' as <-; intros [Hpos _]; discriminate Hpos.
  - apply Hnone. intros n b Hb Hn.
    destruct n as [| [| [| n]]]; [| | | lia];
      injection Hb as <-; intros [Hpos _]; discriminate Hpos.
Defined.

(** C4 on the sample chain: the sample coinstake is accepted at time
    1500000032 and leaves the state as it was; at time 1500000000 its
    kernel hash is above the target and the state gets score 1. *)
Lemma CheckProofOfStake_spec_witness :
  option_map (eval H)
    (CheckProofOfStake (env := env) tip coinstake nBits 1500000032 view
       state0) = Some (true, state0)
  /\ option_map (eval H)
       (CheckProofOfStake (env := env) tip coinstake nBits 1500000000 view
          state0)
     = Some (false, {| mode := MODE_INVALID; nDoS := 1 |}).
Proof.
  destruct (@CheckProofOfStake_spec env H tip coinstake nBits 1500000032
              view state0 {| prevout := outpoint; scriptSig := [] |} []
              (fun _ => eq_refl))
    as [m [Hm [Haccept [Hstate _]]]].
  destruct (@CheckProofOfStake_spec env H tip coinstake nBits 1500000000
              view state0 {| prevout := outpoint; scriptSig := [] |} []
              (fun _ => eq_refl))
    as [m' [Hm' [_ [_ [_ [_ [_ [_ Hkernel]]]]]]]].
  split.
  - rewrite Hm. cbn [option_map].
    assert (Hfst : fst (eval H m) = true).
    { apply Haccept. split; [reflexivity |].
      exists coin. repeat split; vm_compute; (reflexivity || discriminate). }
    specialize (Hstate Hfst).
    destruct (eval H m) as [ok state']. cbn in Hfst, Hstate.
    now subst.
  - rewrite Hm'. cbn [option_map].
    rewrite (Hkernel coin); vm_compute; (reflexivity || discriminate).
Defined.

(** The maturity boundary on the sample chain: the sample coin has
    6 + 1 - 2 = 5 confirmations; with 5 required the coinstake is
    accepted and the coin is cached, with 6 required the coinstake is
    rejected with score 100 and the cache stays empty. *)
Example maturity_boundary_on_sample_chain :
  option_map (eval H)
    (CheckProofOfStake (env := env_conf 5) tip coinstake nBits 1500000032
       view state0) = Some (true, state0)
  /\ option_map (eval H)
       (CheckProofOfStake (env := env_conf 6) tip coinstake nBits 1500000032
          view state0)
     = Some (false, {| mode := MODE_INVALID; nDoS := 100 |})
  /\ CacheKernel (env := env_conf 5) ∅ outpoint tip view !! outpoint
     = Some {| blockFromTime := 1400000032; amount := mkAmount 100000 |}
  /\ CacheKernel (env := env_conf 6) ∅ outpoint tip view !! outpoint = None.
Proof.
  split; [| split; [| split]]; vm_compute; reflexivity.
Qed.

End OnSampleChain.

(** * The further properties on the sample chain *)

Section FurtherOnSampleChain.
Import Reference Sample SampleMore.
Local Abbreviation H := Hash256.

(** X2 on the sample kernel, hashed below the sample tip and below a
    detached block. *)
Lemma kernel_stream_determines_kernel_witness :
  nStakeModifier tip = nStakeModifier detached_block
  /\ 1400000032 = 1400000032
  /\ op_hash outpoint = op_hash outpoint
  /\ op_n outpoint = op_n outpoint
  /\ 1500000032 = 1500000032.
Proof.
  apply (@kernel_stream_determines_kernel env H H tip detached_block nBits
           nBits 1400000032 1400000032 (mkAmount 100000) (mkAmount 7)
           outpoint outpoint 1500000032 1500000032).
  1-10: split; now vm_compute.
  - vm_compute. discriminate.
  - vm_compute. reflexivity.
Defined.

(** X16 on the sample tip and a detached block with its stake
    modifier. *)
Lemma modifier_stream_determines_inputs_witness :
  12345 = 12345 /\ nStakeModifier tip = nStakeModifier detached_block.
Proof.
  apply (modifier_stream_determines_inputs H H tip detached_block 12345
           12345).
  1-4: split; now vm_compute.
  reflexivity.
Defined.

(** X3 on the sample kernel: accepted with 100000 satoshis, so accepted
    with 200000. *)
Lemma larger_stake_keeps_kernel_witness :
  eval H (CheckStakeKernelHash (env := env) tip nBits 1400000032
            (mkAmount 200000) outpoint 1500000032) = true.
Proof.
  apply (@larger_stake_keeps_kernel env H tip nBits 1400000032
           (mkAmount 100000) (mkAmount 200000) outpoint 1500000032).
  - now vm_compute.
  - split; now vm_compute.
  - now vm_compute.
  - now vm_compute.
  - vm_compute. reflexivity.
Defined.

(** X5 on the sample view, for the sample outpoint and a second one. *)
Lemma CacheKernel_commutes_witness :
  CacheKernel (env := env) (CacheKernel (env := env) ∅ outpoint tip view)
    other_outpoint (block 5) view
  = CacheKernel (env := env)
      (CacheKernel (env := env) ∅ other_outpoint (block 5) view)
      outpoint tip view.
Proof.
  apply (@CacheKernel_commutes env ∅ outpoint other_outpoint tip (block 5)
           view view).
  intros Heq. apply (f_equal op_hash) in Heq. discriminate Heq.
Defined.

(** X7 on the sample chain, after a scan of both outpoints: the
    outpoint with a coin is judged by the kernel hash check, the one
    without a coin is rejected. *)
Lemma scan_cache_verdict_witness :
  let cache := fold_left (fun c p => CacheKernel (env := env) c p tip view)
                 [other_outpoint; outpoint] ∅ in
  eval H (CheckKernel_cached (env := env) tip nBits 1500000032 outpoint
            (Some 0) cache)
  = (eval H (CheckStakeKernelHash (env := env) tip nBits (nTime (block 2))
               (nValue (out coin)) outpoint 1500000032),
     Some (nTime (block 2)))
  /\ CheckKernel_cached (env := env) tip nBits 1500000032 other_outpoint
       (Some 0) cache = Done (false, Some 0).
Proof.
  cbv zeta.
  destruct (@scan_cache_verdict env H tip view [other_outpoint; outpoint]
              nBits 1500000032 outpoint (Some 0)) as [Hhit _].
  { apply elem_of_cons. right. apply elem_of_cons. now left. }
  destruct (@scan_cache_verdict env H tip view [other_outpoint; outpoint]
              nBits 1500000032 other_outpoint (Some 0)) as [_ Hmiss].
  { apply elem_of_cons. now left. }
  split.
  - apply (Hhit coin (block 2)).
    + reflexivity.
    + vm_compute. intros Hc. discriminate Hc.
    + reflexivity.
  - apply Hmiss. left. reflexivity.
Defined.

(** X8 on the sample chain, with the view that holds the spent coin. *)
Lemma spent_coin_is_cached_witness :
  CacheKernel (env := env) ∅ outpoint tip spent_view !! outpoint
  = Some (mkStakeCache (nTime (block 2)) (nValue (out spent_coin)))
  /\ fst (eval H (CheckKernel_cached (env := env) tip nBits 1500000032
                    outpoint None
                    (CacheKernel (env := env) ∅ outpoint tip spent_view)))
     = eval H (CheckStakeKernelHash (env := env) tip nBits (nTime (block 2))
                 (nValue (out spent_coin)) outpoint 1500000032).
Proof.
  apply (@spent_coin_is_cached env H tip spent_view ∅ nBits 1500000032
           outpoint None spent_coin (block 2)).
  - reflexivity.
  - reflexivity.
  - reflexivity.
  - now vm_compute.
  - reflexivity.
Defined.

(** X9 on the sample coinstake, after a scan of both outpoints. *)
Lemma CheckProofOfStake_agrees_with_cached_CheckKernel_witness :
  exists m,
    CheckProofOfStake (env := env) tip coinstake nBits 1500000032 view state0
    = Some m
    /\ fst (eval H m)
       = fst (eval H
                (CheckKernel_cached (env := env) tip nBits 1500000032
                   (prevout txin) None
                   (fold_left
                      (fun c p => CacheKernel (env := env) c p tip view)
                      [other_outpoint; outpoint] ∅))).
Proof.
  apply (@CheckProofOfStake_agrees_with_cached_CheckKernel env H tip
           coinstake nBits 1500000032 view state0 txin [] coin (block 2)
           [other_outpoint; outpoint] None);
    try reflexivity.
  apply elem_of_cons. right. apply elem_of_cons. now left.
Defined.

(** X10 on the sample coinstake. *)
Lemma CheckProofOfStake_hashes_last_witness :
  exists m,
    CheckProofOfStake (env := env) tip coinstake nBits 1500000032 view state0
    = Some m
    /\ (length (hashed H m) <= 1)%nat.
Proof.
  destruct (@CheckProofOfStake_hashes_last env H tip coinstake nBits
              1500000032 view state0 txin [] (fun _ => eq_refl))
    as (m & Hm & Hlen & _).
  now exists m.
Defined.

(** X12 on the sample chain: block 3, found at depth 3 within four
    blocks, is found at depth 3 within seven. *)
Lemma IsConfirmedInNPrevBlocks_wider_window_witness :
  IsConfirmedInNPrevBlocks (mkDiskTxPos 0 3008 0) (Some tip) 7 0 = (true, 3).
Proof.
  apply (IsConfirmedInNPrevBlocks_wider_window (mkDiskTxPos 0 3008 0)
           (Some tip) 4 7 (-1) 0 3).
  - now vm_compute.
  - vm_compute. reflexivity.
Defined.

(** X14 with the sample parameters, whose mask is 15. *)
Lemma granular_timestamps_are_multiples_witness :
  CheckCoinStakeTimestamp (env := env) 1500000032 1500000032 = true
  <-> 1500000032 = 1500000032 /\ 1500000032 mod 2 ^ 4 = 0.
Proof.
  apply (@granular_timestamps_are_multiples env 4 1500000032 1500000032).
  - now vm_compute.
  - reflexivity.
  - reflexivity.
Defined.

(** X15 on the sample tip and a detached block with its stake
    modifier. *)
Lemma CheckKernel_cached_reads_modifier_only_witness :
  CheckKernel_cached (env := env) tip nBits 1500000032 outpoint None
    (CacheKernel (env := env) ∅ outpoint tip view)
  = CheckKernel_cached (env := env) detached_block nBits 1500000032 outpoint
      None (CacheKernel (env := env) ∅ outpoint tip view).
Proof.
  apply (@CheckKernel_cached_reads_modifier_only env tip detached_block).
  reflexivity.
Defined.

End FurtherOnSampleChain.

(** * Where the code departs from its own rule *)

Section Defects.
Import Reference Sample SampleMore.
Local Abbreviation H := Hash256.

(** C3: the weighted target overflows.  On the sample kernel with the
    easiest target and a stake of 100 coins the timestamp, decode and
    amount checks pass and the digest is below the decoded target times
    the amount, which is above 2^256, yet [CheckStakeKernelHash] rejects:
    it compares with the low 256 bits of the product.  At time
    1500000032 a stake of 1048576 satoshis wins the kernel and a stake of
    1048578 satoshis loses it. *)
Theorem CheckStakeKernelHash_weighted_target_overflows :
  let bnTarget := fst (fst (SetCompact (Collaborators := env) nBits)) in
  let ss nTime :=
    le_bytes 32 (nStakeModifier tip) ++ le_bytes 4 1400000032
    ++ le_bytes 32 (op_hash outpoint) ++ le_bytes 4 (op_n outpoint)
    ++ le_bytes 4 nTime in
  (SetCompact (Collaborators := env) nBits = (1048575 * 2 ^ 216, false, false)
   /\ 2 ^ 256 <= bnTarget * 10000000000
   /\ H (ss 1500000000) <= bnTarget * 10000000000
   /\ eval H (CheckStakeKernelHash (env := env) tip nBits 1400000032
                (mkAmount 10000000000) outpoint 1500000000) = false)
  /\ (bnTarget * 1048576 < 2 ^ 256
      /\ H (ss 1500000032) <= bnTarget * 1048576
      /\ H (ss 1500000032) <= bnTarget * 1048578
      /\ eval H (CheckStakeKernelHash (env := env) tip nBits 1400000032
                   (mkAmount 1048576) outpoint 1500000032) = true
      /\ eval H (CheckStakeKernelHash (env := env) tip nBits 1400000032
                   (mkAmount 1048578) outpoint 1500000032) = false).
Proof.
  cbv zeta.
  split; [split; [| split; [| split]]
         | split; [| split; [| split; [| split]]]];
    vm_compute; (reflexivity || discriminate).
Qed.


End Defects.
